(** * Verification of [assets/unit_animation.py]

    The script reads [data/Units.json], removes [//] line comments, parses the
    rest as JSON and then either prints a Rust fragment ([--rust]) or one
    texture path per line.  The development below embeds the script as Rocq
    functions over the parsed configuration and proves the properties stated
    for it.

    Data: a unit is a Python dict from animation keys to animation entries
    (a [gmap]); the configuration is a dict from unit names to units whose
    iteration order matters (an association list, in insertion order).
    Every animation entry carries its [Texture], a string, and its [Frames],
    a list of integers; which of the four animation keys a unit has is left
    open, since the script tests it.  Strings are byte strings; frame values
    and counters are unbounded integers as in Python.  [json.loads] is a
    parameter of the development.  Standard output is the list of the
    strings handed to [print], each of which is written followed by a
    newline; an uncaught exception ends the run and keeps what was printed
    before it. *)

From Stdlib Require Import Ascii String.
From stdpp Require Import base strings list gmap sorting pretty.

Open Scope string_scope.
Open Scope list_scope.

(** ** Errors and outcomes *)

(** The three fatal failures: [json.JSONDecodeError], [KeyError] with the
    missing key, and the [OSError] of [os.listdir]. *)
Inductive error : Type :=
  | ParseError
  | KeyError (key : string)
  | FileSystemError.

Global Instance error_eq_dec : EqDecision error.
Proof. solve_decision. Defined.

(** What a run leaves behind: the printed lines, in order, and the uncaught
    exception if there was one. *)
Record outcome : Type := Outcome {
  printed : list string;
  raised : option error
}.

Global Instance outcome_eq_dec : EqDecision outcome.
Proof. solve_decision. Defined.

(** The line feed, byte 10. *)
Definition LF : Ascii.ascii := Ascii.ascii_of_nat 10.

(** The bytes written to standard output: [print] appends a newline. *)
Definition stdout_text (o : outcome) : string :=
  String.concat "" ((λ l, l +:+ String LF "") <$> printed o).

(** The process exit status: 0, or 1 for an uncaught exception. *)
Definition exit_code (o : outcome) : nat :=
  match raised o with None => 0 | Some _ => 1 end.

(** ** Configuration *)

(** One animation entry: [{"Texture": ..., "Frames": [...]}]. *)
Record anim_data : Type := AnimData {
  Texture : string;
  Frames : list Z
}.

Global Instance anim_data_eq_dec : EqDecision anim_data.
Proof. solve_decision. Defined.

(** [unit_data]: the dict of one unit; [units_data]: the whole document. *)
Abbreviation unit_data := (gmap string anim_data).
Abbreviation units_data := (list (string * gmap string anim_data)).

(** The list [animations] of line 66, which is also the order of the four
    subscripts of lines 28 to 34. *)
Definition animations : list string :=
  ["IdleAnimation"; "MoveUpAnimation"; "MoveDownAnimation"; "MoveSideAnimation"].

(** ** Python helpers *)

(** [d[key]] on a dict. *)
Definition getitem (d : gmap string anim_data) (key : string) : error + anim_data :=
  match d !! key with
  | Some v => inr v
  | None => inl (KeyError key)
  end.

(** [s.replace('-', '')]. *)
Fixpoint replace_dash (s : string) : string :=
  match s with
  | EmptyString => EmptyString
  | String c rest =>
      if Ascii.eqb c "-"%char then replace_dash rest else String c (replace_dash rest)
  end.

(** [', '.join(map(str, frames))]. *)
Definition frames_str (frames : list Z) : string :=
  String.concat ", " (pretty <$> frames).

(** [s.startswith('/')] and [s.endswith('/')]. *)
Definition startswith_sep (s : string) : bool :=
  match s with
  | String c _ => Ascii.eqb c "/"%char
  | EmptyString => false
  end.

Fixpoint endswith_sep (s : string) : bool :=
  match s with
  | EmptyString => false
  | String c EmptyString => Ascii.eqb c "/"%char
  | String _ rest => endswith_sep rest
  end.

(** [os.path.join(a, b)] of [posixpath]. *)
Definition path_join (a b : string) : string :=
  if startswith_sep b then b
  else if (String.eqb a "" || endswith_sep a)%bool then a +:+ b
  else a +:+ "/" +:+ b.

(** ** [--rust]: the generated Rust fragment *)

(** The body of the loop of lines 26 to 48 for one unit, entered with the
    running total [frames]: the four subscripts come first, so a missing key
    raises before anything of this unit is printed. *)
Definition rust_unit (frames : nat) (ud : gmap string anim_data)
    : error + (list string * nat) :=
  match getitem ud "IdleAnimation" with
  | inl e => inl e
  | inr idle =>
    let idle_texture := replace_dash (Texture idle) in
    let idle_frames := Frames idle in
    match getitem ud "MoveUpAnimation" with
    | inl e => inl e
    | inr move_up =>
      let move_up_frames := Frames move_up in
      match getitem ud "MoveDownAnimation" with
      | inl e => inl e
      | inr move_down =>
        let move_down_frames := Frames move_down in
        match getitem ud "MoveSideAnimation" with
        | inl e => inl e
        | inr move_side =>
          let move_side_frames := Frames move_side in
          inr ([ "    Unit::" +:+ idle_texture +:+ " => (" +:+ pretty frames
                   +:+ ", UnitAnimationData::new(";
                 "        &[" +:+ frames_str idle_frames +:+ "],";
                 "        &[" +:+ frames_str move_up_frames +:+ "],";
                 "        &[" +:+ frames_str move_down_frames +:+ "],";
                 "        &[" +:+ frames_str move_side_frames +:+ "],";
                 "    ))," ],
               frames + (length idle_frames + length move_up_frames
                         + length move_down_frames + length move_side_frames))
        end
      end
    end
  end.

(** The loop over [units_data.items()]: the lines printed, and either the
    exception that stopped it or the final value of [frames]. *)
Fixpoint rust_loop (frames : nat) (items : units_data)
    : list string * (error + nat) :=
  match items with
  | [] => ([], inr frames)
  | (unit_name, ud) :: rest =>
      match rust_unit frames ud with
      | inl e => ([], inl e)
      | inr (lines, frames') =>
          let '(out, r) := rust_loop frames' rest in (lines ++ out, r)
      end
  end.

Definition rust_header : list string :=
  [ "// This file is generated by unit_animation.py --rust";
    "fn get_animation_data(unit: Unit) -> (u16, UnitAnimationData) {";
    "match unit {" ].

Definition total_frames_line (frames : nat) : string :=
  "pub const TOTAL_FRAMES: usize = " +:+ pretty frames +:+ ";".

Definition rust_footer (frames : nat) : list string :=
  [ "}"; "}"; "impl UnitAnimationData {"; total_frames_line frames; "}" ].

(** The branch [if args.rust:] of lines 19 to 55. *)
Definition rust_mode (cfg : units_data) : outcome :=
  match rust_loop 0 cfg with
  | (out, inl e) => Outcome (rust_header ++ out) (Some e)
  | (out, inr frames) => Outcome (rust_header ++ out ++ rust_footer frames) None
  end.

(** ** File paths: the [else] branch *)

(** What the script sees of the file system: [os.listdir] ([None] when it
    raises [OSError]: the directory is absent or cannot be listed) and
    [os.path.isdir]. *)
Record filesystem : Type := FileSystem {
  listdir : string → option (list string);
  isdir : string → bool
}.

(** [sorted(names)]: the order of Python strings is lexicographic, which
    on byte strings is [String.le]. *)
Definition sorted (names : list string) : list string :=
  merge_sort String.le names.

Definition default_textures_dir : string :=
  "../AWBW-Replay-Player/AWBWApp.Resources/Textures".

(** Lines 58 and 59: [os.environ.get('TEXTURES_DIR', ...)] joined with
    ['Units']. *)
Definition base_path_of (TEXTURES_DIR : option string) : string :=
  let base_path := default default_textures_dir TEXTURES_DIR in
  path_join base_path "Units".

(** Line 62: the entries of [base_path] that are directories, sorted. *)
Definition factions_of (fs : filesystem) (base_path : string)
    : option (list string) :=
  match listdir fs base_path with
  | None => None
  | Some names =>
      Some (sorted (filter (λ d, isdir fs (path_join base_path d)) names))
  end.

(** Line 76, for the loop variable [i]. *)
Definition file_path (base_path faction texture_name : string) (i : nat) : string :=
  base_path +:+ "/" +:+ faction +:+ "/" +:+ texture_name +:+ "-" +:+ pretty i
    +:+ ".png".

(** Lines 70 to 77: the lines of one animation entry. *)
Definition anim_lines (base_path faction : string) (anim : anim_data)
    : list string :=
  let texture_name := Texture anim in
  let frame_count := length (Frames anim) in
  file_path base_path faction texture_name <$> seq 0 frame_count.

(** Lines 68 to 77 for the animation kinds [kinds]: a kind that is not a key
    of the unit prints nothing. *)
Definition kinds_lines (base_path faction : string) (ud : gmap string anim_data)
    (kinds : list string) : list string :=
  kinds ≫= λ anim_type,
    match ud !! anim_type with
    | Some anim => anim_lines base_path faction anim
    | None => []
    end.

Definition unit_lines (base_path faction : string) (ud : gmap string anim_data)
    : list string :=
  kinds_lines base_path faction ud animations.

(** Lines 65 to 77: one faction's pass over [units_data.items()]. *)
Definition faction_lines (base_path faction : string) (cfg : units_data)
    : list string :=
  cfg ≫= λ '(unit_name, ud), unit_lines base_path faction ud.

(** The [else] branch, lines 57 to 77. *)
Definition paths_mode (fs : filesystem) (TEXTURES_DIR : option string)
    (cfg : units_data) : outcome :=
  let base_path := base_path_of TEXTURES_DIR in
  match factions_of fs base_path with
  | None => Outcome [] (Some FileSystemError)
  | Some factions =>
      Outcome (factions ≫= λ faction, faction_lines base_path faction cfg) None
  end.

(** ** Reading the document *)

(** [re.sub(r'//.*', '', content)]: from each leftmost [//], everything up to
    but not including the next line feed is removed.  [skipping] tells that
    the scan is inside a match. *)
Fixpoint sub_comments (skipping : bool) (content : string) : string :=
  match content with
  | EmptyString => EmptyString
  | String c rest =>
      if skipping then
        if Ascii.eqb c LF then String c (sub_comments false rest)
        else sub_comments true rest
      else if (Ascii.eqb c "/"%char && startswith_sep rest)%bool then
        sub_comments true rest
      else String c (sub_comments false rest)
  end.

Definition strip_comments (content : string) : string :=
  sub_comments false content.

(** The inputs of a run. *)
Record world : Type := World {
  units_json : string;
  rust : bool;
  TEXTURES_DIR : option string;
  files : filesystem
}.

Section Generator.

(** [json.loads], restricted to documents of the data model: [None] is a
    [JSONDecodeError]. *)
Variable json_loads : string → option units_data.

(** Lines 13 to 17. *)
Definition load_units (content : string) : error + units_data :=
  let content := strip_comments content in
  match json_loads content with
  | Some units_data => inr units_data
  | None => inl ParseError
  end.

(** The whole script. *)
Definition main (w : world) : outcome :=
  match load_units (units_json w) with
  | inl e => Outcome [] (Some e)
  | inr units_data =>
      if rust w then rust_mode units_data
      else paths_mode (files w) (TEXTURES_DIR w) units_data
  end.

End Generator.

(** ** Quantities the statements speak of *)

(** Every one of the four animation keys is a key of the unit. *)
Definition has_all_keys (ud : gmap string anim_data) : Prop :=
  ∀ k, k ∈ animations → is_Some (ud !! k).

Definition complete (cfg : units_data) : Prop :=
  Forall (λ p, has_all_keys p.2) cfg.

(** Some animation key is missing from the unit. *)
Definition lacks_key (ud : gmap string anim_data) : Prop :=
  ∃ k, k ∈ animations ∧ ud !! k = None.

(** The length of the frame sequence under [k], nothing if [k] is absent. *)
Definition entry_frames (ud : gmap string anim_data) (k : string) : nat :=
  from_option (λ anim, length (Frames anim)) 0 (ud !! k).

(** The frames of a unit over the animation kinds present on it. *)
Definition unit_frames (ud : gmap string anim_data) : nat :=
  sum_list_with (entry_frames ud) animations.

(** The frames of a configuration, over all units. *)
Definition total_frames (cfg : units_data) : nat :=
  sum_list_with (λ p, unit_frames p.2) cfg.

(** The printed lines of file-path mode, each with the loop variable
    [faction] under which line 77 printed it. *)
Definition tagged_lines (base_path : string) (factions : list string)
    (cfg : units_data) : list (string * string) :=
  factions ≫= λ faction,
    (λ line, (faction, line)) <$> faction_lines base_path faction cfg.

(** The texture directory before ['Units'] is joined to it: the override
    when it is set, else the default. *)
Definition textures_root (TEXTURES_DIR : option string) : string :=
  default default_textures_dir TEXTURES_DIR.

(** [d] is an immediate subdirectory of the directory [D]. *)
Definition immediate_subdir (fs : filesystem) (D d : string) : Prop :=
  ∃ names, listdir fs D = Some names ∧ d ∈ names
           ∧ isdir fs (path_join D d) = true.

(** The animation entries present on a unit, in the order of [animations]. *)
Definition present_entries (ud : gmap string anim_data) : list anim_data :=
  omap (λ k, ud !! k) animations.

(** The lines of an entry if the suffix of a line were the value of the
    frame index: one line per element of [Frames], numbered by it. *)
Definition lines_by_frame_value (base_path faction : string) (anim : anim_data)
    : list string :=
  (λ idx : Z, base_path +:+ "/" +:+ faction +:+ "/" +:+ Texture anim +:+ "-"
                +:+ pretty idx +:+ ".png") <$> Frames anim.

(** Two animation entries with the same texture and as many frames. *)
Definition same_frame_counts (a b : anim_data) : Prop :=
  Texture a = Texture b ∧ length (Frames a) = length (Frames b).

(** Two units with the same keys and, under each key, entries that agree up
    to the values of the frames. *)
Definition unit_agree (u v : gmap string anim_data) : Prop :=
  ∀ k, option_Forall2 same_frame_counts (u !! k) (v !! k).

(** Two configurations with the same units in the same order, agreeing up to
    the values of the frames. *)
Definition cfg_agree (c1 c2 : units_data) : Prop :=
  Forall2 (λ p q, p.1 = q.1 ∧ unit_agree p.2 q.2) c1 c2.

(** ** Comments, as a JSON reader with line comments sees them *)

Definition quote : ascii := Ascii.ascii_of_nat 34.
Definition backslash : ascii := Ascii.ascii_of_nat 92.

(** Where a scan of the document stands: between tokens, inside a string
    value, just after a backslash inside a string value, inside a comment. *)
Inductive lex_state : Type := Code | InString | Escaped | Comment.

Definition lex_next (st : lex_state) (c : ascii) (rest : string) : lex_state :=
  match st with
  | Comment => if Ascii.eqb c LF then Code else Comment
  | Escaped => InString
  | InString =>
      if Ascii.eqb c backslash then Escaped
      else if Ascii.eqb c quote then Code else InString
  | Code =>
      if Ascii.eqb c quote then InString
      else if (Ascii.eqb c "/"%char && startswith_sep rest)%bool then Comment
      else Code
  end.

(** The document without its comments: a comment starts at a [//] that is
    outside every string value and ends before the next line feed. *)
Fixpoint without_comments (st : lex_state) (doc : string) : string :=
  match doc with
  | EmptyString => EmptyString
  | String c rest =>
      match lex_next st c rest with
      | Comment => without_comments Comment rest
      | st' => String c (without_comments st' rest)
      end
  end.

(** No [//] stands inside a string value. *)
Fixpoint slashes_outside_strings (st : lex_state) (doc : string) : bool :=
  match doc with
  | EmptyString => true
  | String c rest =>
      match st with
      | InString | Escaped => negb (Ascii.eqb c "/"%char && startswith_sep rest)
      | Code | Comment => true
      end && slashes_outside_strings (lex_next st c rest) rest
  end.

(** Some [//] occurs in the text; some line feed occurs in the text. *)
Fixpoint has_double_slash (s : string) : bool :=
  match s with
  | EmptyString => false
  | String c rest =>
      (Ascii.eqb c "/"%char && startswith_sep rest) || has_double_slash rest
  end.

Fixpoint has_line_feed (s : string) : bool :=
  match s with
  | EmptyString => false
  | String c rest => Ascii.eqb c LF || has_line_feed rest
  end.

(** The substitution is inside a match exactly when the scan is inside a
    comment. *)
Definition skipping_of (st : lex_state) : bool :=
  match st with Comment => true | _ => false end.

(** ** Sample inputs *)

(** The configuration [{"Tank": ...}] with frames [0,1], [0], [0] and
    [0,1,2], all on the texture [tank-a]. *)
Definition tank : gmap string anim_data :=
  <["IdleAnimation" := AnimData "tank-a" [0; 1]%Z]>
  (<["MoveUpAnimation" := AnimData "tank-a" [0]%Z]>
  (<["MoveDownAnimation" := AnimData "tank-a" [0]%Z]>
  (<["MoveSideAnimation" := AnimData "tank-a" [0; 1; 2]%Z]> ∅))).

Definition tank_cfg : units_data := [("Tank", tank)].

(** A parser that knows one document, the empty object before a blank. *)
Definition sample_loads (text : string) : option units_data :=
  if String.eqb text "{} " then Some [] else None.

(** The same unit with frame values that are not positions. *)
Definition tank_timed : gmap string anim_data :=
  <["IdleAnimation" := AnimData "tank-a" [300; 300]%Z]>
  (<["MoveUpAnimation" := AnimData "tank-a" [150]%Z]>
  (<["MoveDownAnimation" := AnimData "tank-a" [150]%Z]>
  (<["MoveSideAnimation" := AnimData "tank-a" [100; 100; 100]%Z]> ∅))).

(** The unit without its [MoveUpAnimation]. *)
Definition tank_no_up : gmap string anim_data :=
  delete "MoveUpAnimation" tank.

(** A directory [T] that holds [Units], which holds one faction. *)
Definition fs_nested : filesystem :=
  FileSystem
    (λ p, if String.eqb p "T" then Some ["Units"]
          else if String.eqb p "T/Units" then Some ["OrangeStar"]
          else None)
    (λ p, true).

(** Under [T/Units]: two faction directories, listed out of order, and a
    plain file. *)
Definition fs_two : filesystem :=
  FileSystem
    (λ p, if String.eqb p "T/Units"
          then Some ["OrangeStar"; "readme.txt"; "BlueMoon"]
          else None)
    (λ p, negb (String.eqb p "T/Units/readme.txt")).

(** A run on a document with one comment. *)
Definition sample_world : world :=
  World "{} // no units yet" false (Some "T") fs_nested.

(** ** Further quantities *)

(** The key whose subscript fails first in lines 28 to 34, if any. *)
Definition first_missing_key (ud : gmap string anim_data) : option string :=
  head (filter (λ k, ud !! k = None) animations).

(** Two units that [--rust] mode cannot tell apart: the same idle entry, and
    the same frames under each of the other three keys. *)
Definition rust_agree (u v : gmap string anim_data) : Prop :=
  u !! "IdleAnimation" = v !! "IdleAnimation"
  ∧ ∀ k, k ∈ animations →
      option_Forall2 (λ a b, Frames a = Frames b) (u !! k) (v !! k).

(** A unit whose three movement entries name other textures than [tank]. *)
Definition tank_retextured : gmap string anim_data :=
  <["IdleAnimation" := AnimData "tank-a" [0; 1]%Z]>
  (<["MoveUpAnimation" := AnimData "tank-up" [0]%Z]>
  (<["MoveDownAnimation" := AnimData "tank-down" [0]%Z]>
  (<["MoveSideAnimation" := AnimData "tank-side" [0; 1; 2]%Z]>
  (<["Name" := AnimData "" []]> ∅)))).

(** Some [/] occurs in the name. *)
Fixpoint contains_sep (s : string) : bool :=
  match s with
  | EmptyString => false
  | String c rest => Ascii.eqb c "/"%char || contains_sep rest
  end.

(** The number of line feeds in a text. *)
Fixpoint count_line_feeds (s : string) : nat :=
  match s with
  | EmptyString => 0
  | String c rest =>
      (if Ascii.eqb c LF then 1 else 0) + count_line_feeds rest
  end.

(** The same directory as [fs_two], listed in another order. *)
Definition fs_two_reordered : filesystem :=
  FileSystem
    (λ p, if String.eqb p "T/Units"
          then Some ["BlueMoon"; "OrangeStar"; "readme.txt"]
          else None)
    (λ p, negb (String.eqb p "T/Units/readme.txt")).

(** ** Where the document is read from: lines 11 and 12 *)

(** [p[:p.rfind('/') + 1]]: the text up to and including the last [/]. *)
Fixpoint head_to_last_sep (p : string) : string :=
  match p with
  | EmptyString => EmptyString
  | String c rest =>
      if (Ascii.eqb c "/"%char || contains_sep rest)%bool
      then String c (head_to_last_sep rest)
      else EmptyString
  end.

(** [head == '/' * len(head)]. *)
Fixpoint all_sep (s : string) : bool :=
  match s with
  | EmptyString => true
  | String c rest => Ascii.eqb c "/"%char && all_sep rest
  end.

(** [head.rstrip('/')]. *)
Fixpoint rstrip_sep (s : string) : string :=
  match s with
  | EmptyString => EmptyString
  | String c rest =>
      let rest' := rstrip_sep rest in
      if (Ascii.eqb c "/"%char && String.eqb rest' "")%bool then EmptyString
      else String c rest'
  end.

(** [os.path.dirname(p)] of [posixpath]. *)
Definition dirname (p : string) : string :=
  let head := head_to_last_sep p in
  if (negb (String.eqb head "") && negb (all_sep head))%bool
  then rstrip_sep head
  else head.

(** Lines 11 and 12, for the value [file] of [__file__]:
    [os.path.join(script_dir, 'data', 'Units.json')], which joins from left
    to right. *)
Definition units_json_path (file : string) : string :=
  let script_dir := dirname file in
  path_join (path_join script_dir "data") "Units.json".

(** ** The Rust fragment *)

(** [k ∈ animations] for a literal key. *)
Ltac in_animations := unfold animations; rewrite !elem_of_cons; tauto.

Section RustMode.

Lemma complete_cons name ud cfg :
  complete ((name, ud) :: cfg) ↔ has_all_keys ud ∧ complete cfg.
Proof. unfold complete. by rewrite Forall_cons. Qed.

Lemma has_all_keys_lookups ud :
  has_all_keys ud →
  ∃ idle up down side,
    ud !! "IdleAnimation" = Some idle ∧ ud !! "MoveUpAnimation" = Some up ∧
    ud !! "MoveDownAnimation" = Some down ∧ ud !! "MoveSideAnimation" = Some side.
Proof.
  intros H.
  destruct (H "IdleAnimation") as [idle ?]; [in_animations|].
  destruct (H "MoveUpAnimation") as [up ?]; [in_animations|].
  destruct (H "MoveDownAnimation") as [down ?]; [in_animations|].
  destruct (H "MoveSideAnimation") as [side ?]; [in_animations|].
  by exists idle, up, down, side.
Qed.

(** A unit with its four keys is printed, and moves the running total on
    by its own frames. *)
Lemma rust_unit_complete frames ud :
  has_all_keys ud →
  ∃ lines, rust_unit frames ud = inr (lines, frames + unit_frames ud).
Proof.
  intros (idle & up & down & side & Hi & Hu & Hd & Hs)%has_all_keys_lookups.
  unfold rust_unit, getitem. rewrite Hi, Hu, Hd, Hs. eexists. do 3 f_equal.
  unfold unit_frames, entry_frames, animations. simpl.
  rewrite Hi, Hu, Hd, Hs. simpl. lia.
Qed.

(** A unit that lacks a key raises [KeyError] for one of the four keys. *)
Lemma rust_unit_lacks frames ud :
  lacks_key ud →
  ∃ k, k ∈ animations ∧ rust_unit frames ud = inl (KeyError k).
Proof.
  intros (k & Hk & Hnone). unfold rust_unit, getitem.
  destruct (ud !! "IdleAnimation") eqn:Hi; [|exists "IdleAnimation"; split; [in_animations|done]].
  destruct (ud !! "MoveUpAnimation") eqn:Hu; [|exists "MoveUpAnimation"; split; [in_animations|done]].
  destruct (ud !! "MoveDownAnimation") eqn:Hd; [|exists "MoveDownAnimation"; split; [in_animations|done]].
  destruct (ud !! "MoveSideAnimation") eqn:Hs; [|exists "MoveSideAnimation"; split; [in_animations|done]].
  unfold animations in Hk. rewrite !elem_of_cons, elem_of_nil in Hk.
  destruct Hk as [->|[->|[->|[->|[]]]]]; congruence.
Qed.

Lemma has_all_keys_or_lacks ud : has_all_keys ud ∨ lacks_key ud.
Proof.
  destruct (decide (Forall (λ k, is_Some (ud !! k)) animations)) as [H|H].
  - left. intros k Hk. by eapply Forall_forall in H.
  - right. apply not_Forall_Exists in H; [|apply _].
    apply Exists_exists in H as (k & Hk & Hn). exists k. split; [done|].
    by apply eq_None_not_Some.
Qed.

Lemma rust_loop_complete frames cfg :
  complete cfg →
  ∃ body, rust_loop frames cfg = (body, inr (frames + total_frames cfg)).
Proof.
  revert frames. induction cfg as [|[name ud] cfg IH]; intros frames Hc.
  - exists []. simpl. unfold total_frames. simpl. do 2 f_equal. lia.
  - apply complete_cons in Hc as [Hud Hc].
    destruct (rust_unit_complete frames ud Hud) as [lines Hl].
    destruct (IH (frames + unit_frames ud) Hc) as [body Hb].
    exists (lines ++ body). simpl. rewrite Hl, Hb. do 2 f_equal.
    unfold total_frames. simpl. lia.
Qed.

Lemma rust_loop_lacks frames cfg :
  Exists (λ p, lacks_key p.2) cfg →
  ∃ body k, k ∈ animations ∧ rust_loop frames cfg = (body, inl (KeyError k)).
Proof.
  revert frames. induction cfg as [|[name ud] cfg IH]; intros frames Hex.
  - by apply Exists_nil in Hex.
  - simpl. destruct (has_all_keys_or_lacks ud) as [Hall|Hlack].
    + destruct (rust_unit_complete frames ud Hall) as [lines Hl]. rewrite Hl.
      apply Exists_cons in Hex as [Hex|Hex].
      * destruct Hex as (k & Hk & Hn). destruct (Hall k Hk) as [? ?]. simpl in *. congruence.
      * destruct (IH (frames + unit_frames ud) Hex) as (body & k & Hk & Hb).
        rewrite Hb. by exists (lines ++ body), k.
    + destruct (rust_unit_lacks frames ud Hlack) as (k & Hk & Hr).
      rewrite Hr. by exists [], k.
Qed.

(** The constant is the last line but one. *)
Lemma footer_lookup (l : list string) frames :
  (l ++ rust_footer frames) !! (length (l ++ rust_footer frames) - 2)
  = Some (total_frames_line frames).
Proof.
  rewrite length_app. simpl. rewrite lookup_app_r by lia.
  by replace (length l + 5 - 2 - length l) with 3 by lia.
Qed.

End RustMode.

(** C1. In [--rust] mode, for every configuration in which each unit has all
    four animation keys, the run ends without an exception, and the constant
    [TOTAL_FRAMES], printed once in the closing block, is the sum of the
    lengths of the four frame sequences over all the units. *)
Theorem rust_total_frames_is_sum (cfg : units_data) :
  complete cfg →
  ∃ body,
    rust_mode cfg
      = Outcome (rust_header ++ body ++ rust_footer (total_frames cfg)) None
    ∧ rust_loop 0 cfg = (body, inr (total_frames cfg))
    ∧ printed (rust_mode cfg) !! (length (printed (rust_mode cfg)) - 2)
      = Some ("pub const TOTAL_FRAMES: usize = " +:+ pretty (total_frames cfg) +:+ ";").
Proof.
  intros Hc. destruct (rust_loop_complete 0 cfg Hc) as [body Hb].
  simpl in Hb. exists body. unfold rust_mode. rewrite Hb.
  split; [done|]. split; [done|]. cbn [printed].
  rewrite (app_assoc rust_header). apply footer_lookup.
Qed.

(** C6. In [--rust] mode, a configuration in which some unit lacks one of
    the four animation keys ends in a [KeyError] for one of these keys; a
    configuration in which every unit has the four keys raises nothing. *)
Theorem rust_key_error_iff_key_missing (cfg : units_data) :
  (Exists (λ p, lacks_key p.2) cfg →
     ∃ k, k ∈ animations ∧ raised (rust_mode cfg) = Some (KeyError k))
  ∧ (complete cfg → raised (rust_mode cfg) = None).
Proof.
  split.
  - intros Hex. destruct (rust_loop_lacks 0 cfg Hex) as (body & k & Hk & Hb).
    exists k. split; [done|]. unfold rust_mode. by rewrite Hb.
  - intros Hc. destruct (rust_loop_complete 0 cfg Hc) as [body Hb].
    unfold rust_mode. by rewrite Hb.
Qed.

(** ** File paths *)

Section PathsMode.

Context (fs : filesystem) (dir : option string).

Lemma length_bind {A B} (f : A → list B) (l : list A) :
  length (l ≫= f) = sum_list_with (λ x, length (f x)) l.
Proof.
  induction l as [|x l IH]; [done|].
  rewrite bind_cons, length_app, IH. done.
Qed.

Lemma sum_list_with_const {A} (n : nat) (l : list A) :
  sum_list_with (λ _, n) l = length l * n.
Proof. induction l as [|x l IH]; simpl; [done|]. rewrite IH. lia. Qed.

Lemma length_anim_lines base faction anim :
  length (anim_lines base faction anim) = length (Frames anim).
Proof. unfold anim_lines. by rewrite length_fmap, length_seq. Qed.

Lemma length_kinds_lines base faction ud kinds :
  length (kinds_lines base faction ud kinds)
  = sum_list_with (entry_frames ud) kinds.
Proof.
  unfold kinds_lines. rewrite length_bind.
  induction kinds as [|k kinds IH]; simpl; [done|].
  rewrite IH. f_equal. unfold entry_frames.
  destruct (ud !! k); simpl; [apply length_anim_lines|done].
Qed.

Lemma length_faction_lines base faction cfg :
  length (faction_lines base faction cfg) = total_frames cfg.
Proof.
  unfold faction_lines, total_frames. rewrite length_bind.
  induction cfg as [|[name ud] cfg IH]; simpl; [done|].
  rewrite IH. f_equal. apply length_kinds_lines.
Qed.

(** The run, once the factions are known. *)
Lemma paths_mode_factions factions cfg :
  factions_of fs (base_path_of dir) = Some factions →
  paths_mode fs dir cfg
  = Outcome (factions ≫= λ faction,
               faction_lines (base_path_of dir) faction cfg) None.
Proof. intros H. unfold paths_mode. by rewrite H. Qed.

End PathsMode.

(** C3. In file-path mode, with [F] the faction directories found under the
    texture directory, the number of lines printed is [|F|] times the sum,
    over all units and over the animation kinds present on each unit, of the
    lengths of the frame sequences. *)
Theorem paths_line_count (fs : filesystem) (dir : option string)
    (cfg : units_data) (F : list string) :
  factions_of fs (base_path_of dir) = Some F →
  length (printed (paths_mode fs dir cfg)) = length F * total_frames cfg.
Proof.
  intros HF. rewrite (paths_mode_factions fs dir F cfg HF). cbn [printed].
  rewrite length_bind.
  rewrite <- (sum_list_with_const (total_frames cfg) F).
  clear HF. induction F as [|f F IH]; simpl; [done|].
  rewrite IH. f_equal. apply length_faction_lines.
Qed.

(** ** The order of the factions *)

Section Factions.

Lemma sorted_strongly (names : list string) :
  StronglySorted String.le (sorted names).
Proof. apply StronglySorted_merge_sort; apply _. Qed.

Lemma sorted_perm (names : list string) : sorted names ≡ₚ names.
Proof. apply merge_sort_Permutation. Qed.

Lemma elem_of_sorted (d : string) (names : list string) :
  d ∈ sorted names ↔ d ∈ names.
Proof. by rewrite sorted_perm. Qed.

(** A sorted list without repetition is strictly increasing. *)
Lemma strongly_sorted_strict (l : list string) :
  StronglySorted String.le l → NoDup l →
  StronglySorted (strict String.le) l.
Proof.
  induction 1 as [|x l Hs IH Hall]; intros Hnd; [constructor|].
  apply NoDup_cons in Hnd as [Hx Hnd]. constructor; [by apply IH|].
  apply Forall_forall. intros y Hy. split.
  - by eapply Forall_forall in Hall.
  - intros Hyx. assert (x = y) as ->; [|done].
    apply (anti_symm String.le); [|done]. by eapply Forall_forall in Hall.
Qed.

Lemma strongly_sorted_lookup {A} (R : relation A) (l : list A) i j x y :
  StronglySorted R l → i < j → l !! i = Some x → l !! j = Some y → R x y.
Proof.
  intros Hs. revert i j. induction Hs as [|z l Hs IH Hall]; intros i j Hij Hi Hj.
  - by rewrite lookup_nil in Hi.
  - destruct j as [|j]; [lia|]. destruct i as [|i]; simpl in *.
    + simplify_eq. eapply Forall_forall in Hall; [done|].
      by eapply list_elem_of_lookup_2.
    + apply (IH i j); [lia|done..].
Qed.

(** What line 62 keeps of a listing. *)
Lemma factions_of_elem fs base names :
  listdir fs base = Some names →
  ∃ F, factions_of fs base = Some F
       ∧ StronglySorted String.le F
       ∧ ∀ d, d ∈ F ↔ d ∈ names ∧ isdir fs (path_join base d) = true.
Proof.
  intros Hl. unfold factions_of. rewrite Hl. eexists. split; [done|].
  split; [apply sorted_strongly|]. intros d.
  rewrite elem_of_sorted, list_elem_of_filter, Is_true_true. tauto.
Qed.

Lemma factions_of_strict fs base names F :
  listdir fs base = Some names → NoDup names →
  factions_of fs base = Some F → StronglySorted (strict String.le) F.
Proof.
  intros Hl Hnd. unfold factions_of. rewrite Hl. intros [= <-].
  apply strongly_sorted_strict; [apply sorted_strongly|].
  rewrite sorted_perm. by apply NoDup_filter.
Qed.

End Factions.

Section TaggedLines.

Lemma tagged_lines_snd base F cfg :
  (tagged_lines base F cfg).*2 = F ≫= λ faction, faction_lines base faction cfg.
Proof.
  unfold tagged_lines. induction F as [|f F IH]; [done|].
  rewrite !bind_cons, fmap_app, IH. f_equal.
  rewrite <- list_fmap_compose. apply list_fmap_id.
Qed.

Lemma elem_of_anim_lines base faction anim line :
  line ∈ anim_lines base faction anim →
  ∃ i, i < length (Frames anim)
       ∧ line = file_path base faction (Texture anim) i.
Proof.
  unfold anim_lines. intros (i & -> & Hi)%list_elem_of_fmap.
  exists i. split; [|done]. apply elem_of_seq in Hi. lia.
Qed.

Lemma elem_of_faction_lines base faction cfg line :
  line ∈ faction_lines base faction cfg →
  ∃ texture_name i, line = file_path base faction texture_name i.
Proof.
  unfold faction_lines. intros ([name ud] & Hl & _)%list_elem_of_bind.
  unfold unit_lines, kinds_lines in Hl.
  apply list_elem_of_bind in Hl as (k & Hl & _).
  destruct (ud !! k) as [anim|]; [|by apply elem_of_nil in Hl].
  apply elem_of_anim_lines in Hl as (i & _ & ->). eauto.
Qed.

Lemma elem_of_tagged_lines base F cfg f line :
  (f, line) ∈ tagged_lines base F cfg →
  f ∈ F ∧ line ∈ faction_lines base f cfg.
Proof.
  unfold tagged_lines. intros (f' & Hl & Hf)%list_elem_of_bind.
  apply list_elem_of_fmap in Hl as (l & [= -> ->] & Hl). done.
Qed.

(** The tags never go down along the output. *)
Lemma tagged_lines_sorted base F cfg :
  StronglySorted String.le F →
  StronglySorted (λ p q : string * string, String.le p.1 q.1)
                 (tagged_lines base F cfg).
Proof.
  induction 1 as [|f F Hs IH Hall]; [constructor|].
  unfold tagged_lines. rewrite bind_cons. apply StronglySorted_app_2.
  - intros [f1 l1] [f2 l2] H1 H2. simpl.
    apply list_elem_of_fmap in H1 as (? & [= -> ->] & _).
    apply elem_of_tagged_lines in H2 as [H2 _].
    by eapply Forall_forall in Hall.
  - induction (faction_lines base f cfg) as [|l ls IHl]; [constructor|].
    rewrite fmap_cons. constructor; [done|].
    apply Forall_forall. intros [f' l'] (? & [= -> ->] & _)%list_elem_of_fmap.
    done.
  - apply IH.
Qed.

End TaggedLines.

(** C5. In file-path mode the factions come out in lexicographic order:
    of two printed lines whose factions differ, the one with the
    lexicographically smaller faction is printed first, and the lines of one
    faction are contiguous.  When the listing has no repeated name, the
    sequence of factions is strictly increasing. *)
Theorem paths_factions_in_order (fs : filesystem) (dir : option string)
    (cfg : units_data) (F : list string) :
  factions_of fs (base_path_of dir) = Some F →
  let out := tagged_lines (base_path_of dir) F cfg in
  printed (paths_mode fs dir cfg) = out.*2
  ∧ (∀ f line, (f, line) ∈ out →
       f ∈ F ∧ ∃ (texture_name : string) (i : nat),
         line = base_path_of dir +:+ "/" +:+ f +:+ "/" +:+ texture_name +:+ "-"
                  +:+ pretty i +:+ ".png")
  ∧ (∀ (i j : nat) fi li fj lj,
       out !! i = Some (fi, li) → out !! j = Some (fj, lj) →
       strict String.le fi fj → (i < j)%nat)
  ∧ (∀ (i k j : nat) f li lj fk lk,
       (i ≤ k)%nat → (k ≤ j)%nat →
       out !! i = Some (f, li) → out !! j = Some (f, lj) →
       out !! k = Some (fk, lk) → fk = f)
  ∧ (∀ names, listdir fs (base_path_of dir) = Some names → NoDup names →
       StronglySorted (strict String.le) F).
Proof.
  intros HF out.
  assert (HsF : StronglySorted String.le F).
  { unfold factions_of in HF. destruct (listdir fs _); [|done].
    injection HF as <-. apply sorted_strongly. }
  pose proof (tagged_lines_sorted (base_path_of dir) F cfg HsF) as Hs.
  fold out in Hs.
  assert (Hmono : ∀ (i j : nat) fi li fj lj,
    out !! i = Some (fi, li) → out !! j = Some (fj, lj) → (i ≤ j)%nat → String.le fi fj).
  { intros i j fi li fj lj Hi Hj Hij.
    destruct (decide (i = j)) as [->|Hne].
    - rewrite Hi in Hj. by injection Hj as -> _.
    - apply (strongly_sorted_lookup _ out i j (fi, li) (fj, lj) Hs); [lia|done..]. }
  split; [|split; [|split; [|split]]].
  - rewrite (paths_mode_factions fs dir F cfg HF). cbn [printed].
    unfold out. by rewrite tagged_lines_snd.
  - intros f line [Hf Hl]%elem_of_tagged_lines. split; [done|].
    by apply elem_of_faction_lines in Hl.
  - intros i j fi li fj lj Hi Hj [_ Hnle].
    destruct (decide (i < j)%nat) as [|Hge]; [done|]. exfalso. apply Hnle.
    apply (Hmono j i fj lj fi li); [done..|lia].
  - intros i k j f li lj fk lk Hik Hkj Hi Hj Hk.
    apply (anti_symm String.le).
    + by apply (Hmono k j fk lk f lj).
    + by apply (Hmono i k f li fk lk).
  - intros names Hl Hnd. by eapply factions_of_strict.
Qed.

(** ** The texture directory *)

(** C4, as stated, fails: with [TEXTURES_DIR=T], where [T] holds the
    directory [Units] and [T/Units] holds [OrangeStar], the faction
    enumerated is [OrangeStar], which is not an immediate subdirectory of
    [T]; the only one is [Units]. *)
Lemma factions_not_subdirs_of_root :
  factions_of fs_nested (base_path_of (Some "T")) = Some ["OrangeStar"]
  ∧ ¬ immediate_subdir fs_nested (textures_root (Some "T")) "OrangeStar"
  ∧ immediate_subdir fs_nested (textures_root (Some "T")) "Units".
Proof.
  split; [by vm_compute|]. split.
  - intros (names & Hl & Hin & _). vm_compute in Hl. injection Hl as <-.
    apply list_elem_of_singleton in Hin. discriminate.
  - exists ["Units"]. split; [by vm_compute|]. split; [|done].
    by apply list_elem_of_singleton.
Qed.

(** C4, amended. In file-path mode the texture directory is the value of
    [TEXTURES_DIR] when it is set, else the default relative path; the
    factions enumerated are exactly the immediate subdirectories of the
    directory [Units] joined to it; when that [Units] directory cannot be
    listed the run fails with a [FileSystemError] and prints nothing. *)
Theorem paths_factions_are_units_subdirs (fs : filesystem)
    (dir : option string) (cfg : units_data) :
  (∀ d, base_path_of (Some d) = path_join d "Units")
  ∧ base_path_of None
    = "../AWBW-Replay-Player/AWBWApp.Resources/Textures/Units"
  ∧ (listdir fs (base_path_of dir) = None →
       paths_mode fs dir cfg = Outcome [] (Some FileSystemError))
  ∧ (∀ names, listdir fs (base_path_of dir) = Some names →
       ∃ F, factions_of fs (base_path_of dir) = Some F
            ∧ raised (paths_mode fs dir cfg) = None
            ∧ ∀ d, d ∈ F ↔
                immediate_subdir fs (path_join (textures_root dir) "Units") d).
Proof.
  split; [done|]. split; [done|]. split.
  - intros Hl. unfold paths_mode, factions_of. by rewrite Hl.
  - intros names Hl.
    destruct (factions_of_elem fs _ names Hl) as (F & HF & _ & Hin).
    exists F. split; [done|]. split.
    + by rewrite (paths_mode_factions fs dir F cfg HF).
    + intros d. rewrite Hin. unfold immediate_subdir.
      change (path_join (textures_root dir) "Units") with (base_path_of dir).
      split.
      * intros [? ?]. by exists names.
      * intros (names' & Hl' & ? & ?). rewrite Hl in Hl'. by injection Hl' as <-.
Qed.

(** The amended statement at [fs_nested]. *)
Lemma paths_factions_are_units_subdirs_witness :
  listdir fs_nested (base_path_of (Some "T")) = Some ["OrangeStar"]
  ∧ ∃ F, factions_of fs_nested (base_path_of (Some "T")) = Some F
         ∧ raised (paths_mode fs_nested (Some "T") []) = None
         ∧ ∀ d, d ∈ F ↔
             immediate_subdir fs_nested
               (path_join (textures_root (Some "T")) "Units") d.
Proof.
  split; [reflexivity|].
  apply (proj2 (proj2 (proj2
           (paths_factions_are_units_subdirs fs_nested (Some "T") [])))
           ["OrangeStar"]).
  reflexivity.
Defined.

(** ** One line per frame *)

Section Lines.

Lemma pretty_Z_of_nat (i : nat) : pretty (Z.of_nat i) = pretty i.
Proof. by destruct i. Qed.

Lemma kinds_lines_omap base faction ud kinds :
  kinds_lines base faction ud kinds
  = omap (λ k, ud !! k) kinds ≫= anim_lines base faction.
Proof.
  unfold kinds_lines. induction kinds as [|k kinds IH]; [done|].
  rewrite bind_cons, IH. simpl. by destruct (ud !! k).
Qed.

Lemma anim_lines_lookup base faction anim (i : nat) :
  i < length (Frames anim) →
  anim_lines base faction anim !! i
  = Some (file_path base faction (Texture anim) i).
Proof.
  intros Hi. unfold anim_lines. rewrite list_lookup_fmap.
  by rewrite lookup_seq_lt.
Qed.

(** On the sequence [0, 1, ..., n-1] position and value coincide. *)
Lemma anim_lines_by_value base faction anim (n : nat) :
  Frames anim = Z.of_nat <$> seq 0 n →
  anim_lines base faction anim = lines_by_frame_value base faction anim.
Proof.
  intros HF. unfold anim_lines, lines_by_frame_value. rewrite HF.
  rewrite length_fmap, length_seq, <- list_fmap_compose.
  apply list_fmap_ext. intros _ i _. simpl. unfold file_path.
  by rewrite pretty_Z_of_nat.
Qed.

End Lines.

(** C2, as stated, fails: an entry with frames [3, 5] prints the suffixes
    [-0.png] and [-1.png], not [-3.png] and [-5.png]. *)
Lemma paths_suffix_is_not_frame_value :
  printed (paths_mode fs_nested (Some "T")
             [("Unit", {["IdleAnimation" := AnimData "tank-a" [3; 5]%Z]})])
  = ["T/Units/OrangeStar/tank-a-0.png"; "T/Units/OrangeStar/tank-a-1.png"]
  ∧ lines_by_frame_value "T/Units" "OrangeStar" (AnimData "tank-a" [3; 5]%Z)
    = ["T/Units/OrangeStar/tank-a-3.png"; "T/Units/OrangeStar/tank-a-5.png"]
  ∧ printed (paths_mode fs_nested (Some "T")
               [("Unit", {["IdleAnimation" := AnimData "tank-a" [3; 5]%Z]})])
    ≠ lines_by_frame_value "T/Units" "OrangeStar" (AnimData "tank-a" [3; 5]%Z).
Proof. split; [by vm_compute|]. split; [by vm_compute|]. by vm_compute. Qed.

(** C2, amended. In file-path mode the output is, for every faction in
    order, every unit in configuration order and every animation kind present
    on the unit in the order idle, up, down, side, one line per element of
    the frame sequence, [<base>/<faction>/<texture>-<i>.png], where [<base>]
    is the directory whose subdirectories are the factions and [<i>] is the
    position of the element in the sequence, counted from 0; on a sequence
    [0, 1, ..., n-1] this is also the value of the element. *)
Theorem paths_one_line_per_frame (fs : filesystem) (dir : option string)
    (cfg : units_data) (F : list string) :
  factions_of fs (base_path_of dir) = Some F →
  printed (paths_mode fs dir cfg)
  = (F ≫= λ faction, cfg ≫= λ p,
       present_entries p.2 ≫= anim_lines (base_path_of dir) faction)
  ∧ ∀ faction anim,
      length (anim_lines (base_path_of dir) faction anim) = length (Frames anim)
      ∧ (∀ i : nat, i < length (Frames anim) →
           anim_lines (base_path_of dir) faction anim !! i
           = Some (base_path_of dir +:+ "/" +:+ faction +:+ "/" +:+ Texture anim
                     +:+ "-" +:+ pretty i +:+ ".png"))
      ∧ (∀ n : nat, Frames anim = Z.of_nat <$> seq 0 n →
           anim_lines (base_path_of dir) faction anim
           = lines_by_frame_value (base_path_of dir) faction anim).
Proof.
  intros HF. split.
  - rewrite (paths_mode_factions fs dir F cfg HF). cbn [printed].
    apply list_bind_ext; [|done]. intros faction.
    unfold faction_lines. apply list_bind_ext; [|done]. intros [name ud].
    apply kinds_lines_omap.
  - intros faction anim. split; [apply length_anim_lines|]. split.
    + apply anim_lines_lookup.
    + apply anim_lines_by_value.
Qed.

(** ** A missing animation key *)

Section MissingKey.

Lemma NoDup_animations : NoDup animations.
Proof. apply (bool_decide_unpack _). by vm_compute. Qed.

Lemma kinds_lines_app base faction ud kinds1 kinds2 :
  kinds_lines base faction ud (kinds1 ++ kinds2)
  = kinds_lines base faction ud kinds1 ++ kinds_lines base faction ud kinds2.
Proof. unfold kinds_lines. apply bind_app. Qed.

Lemma kinds_lines_cons base faction ud k kinds :
  kinds_lines base faction ud (k :: kinds)
  = kinds_lines base faction ud [k] ++ kinds_lines base faction ud kinds.
Proof. apply (kinds_lines_app base faction ud [k] kinds). Qed.

(** Only the kind that is inserted sees the insertion. *)
Lemma kinds_lines_insert_other base faction ud k anim kinds :
  k ∉ kinds →
  kinds_lines base faction (<[k := anim]> ud) kinds
  = kinds_lines base faction ud kinds.
Proof.
  intros Hk. unfold kinds_lines. apply Forall_bind_ext, Forall_forall.
  intros k' Hk'. rewrite lookup_insert_ne; [done|]. by intros ->.
Qed.

Lemma kinds_lines_absent base faction ud k :
  ud !! k = None → kinds_lines base faction ud [k] = [].
Proof. intros H. unfold kinds_lines. simpl. by rewrite H. Qed.

Lemma kinds_lines_inserted base faction ud k anim :
  kinds_lines base faction (<[k := anim]> ud) [k]
  = anim_lines base faction anim.
Proof.
  unfold kinds_lines. simpl. rewrite lookup_insert_eq. apply app_nil_r.
Qed.

Lemma faction_lines_app base faction cfg1 cfg2 :
  faction_lines base faction (cfg1 ++ cfg2)
  = faction_lines base faction cfg1 ++ faction_lines base faction cfg2.
Proof. unfold faction_lines. apply bind_app. Qed.

Lemma faction_lines_cons base faction name ud cfg :
  faction_lines base faction ((name, ud) :: cfg)
  = unit_lines base faction ud ++ faction_lines base faction cfg.
Proof. unfold faction_lines. by rewrite bind_cons. Qed.

(** The lines of the unit itself, with and without the key. *)
Lemma unit_lines_split base faction ud k (n : nat) anim :
  animations !! n = Some k → ud !! k = None →
  unit_lines base faction (<[k := anim]> ud)
  = kinds_lines base faction ud (take n animations)
    ++ anim_lines base faction anim
    ++ kinds_lines base faction ud (drop (S n) animations)
  ∧ unit_lines base faction ud
    = kinds_lines base faction ud (take n animations)
      ++ kinds_lines base faction ud (drop (S n) animations).
Proof.
  intros Hn Hk. unfold unit_lines.
  pose proof NoDup_animations as Hnd.
  rewrite <- (take_drop_middle animations n k Hn) in Hnd |- * at 1.
  apply NoDup_app in Hnd as (_ & Hl & Hr). apply NoDup_cons in Hr as [Hr _].
  split.
  - rewrite kinds_lines_app, kinds_lines_cons.
    rewrite kinds_lines_inserted, !kinds_lines_insert_other; [done|done|].
    intros Hin. apply (Hl k Hin). by left.
  - rewrite <- (take_drop_middle animations n k Hn) at 1.
    rewrite kinds_lines_app, kinds_lines_cons.
    by rewrite kinds_lines_absent.
Qed.

End MissingKey.

(** C7. In file-path mode, when a unit lacks one of the four animation
    keys, nothing is raised for it: the run ends as it does for the
    configuration that has an entry under that key, and never with a
    [KeyError].  Its output is the output of that configuration less the
    lines of that entry in each faction: the lines of the other units, and of
    the other animation kinds of the unit, are the same and in the same
    place. *)
Theorem paths_missing_key_drops_its_lines (fs : filesystem)
    (dir : option string) (pre post : units_data)
    (name : string) (ud : gmap string anim_data) (k : string) (n : nat)
    (anim : anim_data) :
  animations !! n = Some k →
  ud !! k = None →
  let base := base_path_of dir in
  let without := pre ++ (name, ud) :: post in
  let with_key := pre ++ (name, <[k := anim]> ud) :: post in
  raised (paths_mode fs dir without) = raised (paths_mode fs dir with_key)
  ∧ (∀ k', raised (paths_mode fs dir without) ≠ Some (KeyError k'))
  ∧ ∀ F, factions_of fs base = Some F →
      raised (paths_mode fs dir without) = None
      ∧ printed (paths_mode fs dir with_key)
        = (F ≫= λ f,
             faction_lines base f pre
             ++ kinds_lines base f ud (take n animations)
             ++ anim_lines base f anim
             ++ kinds_lines base f ud (drop (S n) animations)
             ++ faction_lines base f post)
      ∧ printed (paths_mode fs dir without)
        = (F ≫= λ f,
             faction_lines base f pre
             ++ kinds_lines base f ud (take n animations)
             ++ kinds_lines base f ud (drop (S n) animations)
             ++ faction_lines base f post).
Proof.
  intros Hn Hk base without with_key. subst base without with_key.
  split; [|split].
  - unfold paths_mode. by destruct (factions_of fs (base_path_of dir)).
  - intros k'. unfold paths_mode. by destruct (factions_of fs (base_path_of dir)).
  - intros F HF.
    rewrite !(paths_mode_factions fs dir F _ HF). cbn [printed raised].
    split; [done|]. split.
    + apply list_bind_ext; [|done]. intros f.
      rewrite faction_lines_app, faction_lines_cons.
      destruct (unit_lines_split (base_path_of dir) f ud k n anim Hn Hk) as [-> _].
      by rewrite <- !app_assoc.
    + apply list_bind_ext; [|done]. intros f.
      rewrite faction_lines_app, faction_lines_cons.
      destruct (unit_lines_split (base_path_of dir) f ud k n anim Hn Hk) as [_ ->].
      by rewrite <- !app_assoc.
Qed.

(** ** What the output does not depend on *)

Section Independence.

Lemma anim_lines_agree base faction a b :
  same_frame_counts a b →
  anim_lines base faction a = anim_lines base faction b.
Proof. intros [Ht Hl]. unfold anim_lines. by rewrite Ht, Hl. Qed.

Lemma unit_lines_agree base faction u v :
  unit_agree u v → unit_lines base faction u = unit_lines base faction v.
Proof.
  intros Huv. unfold unit_lines, kinds_lines.
  apply list_bind_ext; [|done]. intros k.
  destruct (Huv k) as [a b Hab|]; [by apply anim_lines_agree|done].
Qed.

Lemma faction_lines_agree base faction c1 c2 :
  cfg_agree c1 c2 →
  faction_lines base faction c1 = faction_lines base faction c2.
Proof.
  induction 1 as [|[n1 u1] [n2 u2] c1 c2 [_ Hu] _ IH]; [done|].
  rewrite !faction_lines_cons, IH. f_equal. by apply unit_lines_agree.
Qed.

(** The unit names are bound by both loops and never read. *)
Lemma faction_lines_values base faction (cfg : units_data) :
  faction_lines base faction cfg = cfg.*2 ≫= unit_lines base faction.
Proof.
  induction cfg as [|[name ud] cfg IH]; [done|].
  by rewrite faction_lines_cons, fmap_cons, bind_cons, IH.
Qed.

Lemma rust_loop_values frames (c1 c2 : units_data) :
  c1.*2 = c2.*2 → rust_loop frames c1 = rust_loop frames c2.
Proof.
  revert frames c2. induction c1 as [|[n1 u1] c1 IH]; intros frames c2 Heq.
  - symmetry in Heq. by apply fmap_nil_inv in Heq as ->.
  - destruct c2 as [|[n2 u2] c2]; [done|]. simpl in Heq.
    injection Heq as -> Heq. simpl.
    destruct (rust_unit frames u2) as [e|[lines frames']]; [done|].
    by rewrite (IH frames' c2 Heq).
Qed.

Lemma replace_dash_filter (s : string) :
  list_ascii_of_string (replace_dash s)
  = filter (λ c, c ≠ "-"%char) (list_ascii_of_string s).
Proof.
  induction s as [|c s IH]; [done|]. simpl.
  destruct (Ascii.eqb_spec c "-") as [->|Hne].
  - by rewrite filter_cons_False by (intros H; by apply H).
  - rewrite filter_cons_True by done. simpl. by rewrite IH.
Qed.

End Independence.

(** C9. In file-path mode the frame sequences count only through their
    lengths: two configurations with the same units in the same order, the
    same animation keys on each unit, the same textures and frame sequences
    of the same lengths print the same bytes and end the same way. *)
Theorem paths_depend_on_frame_counts_only (fs : filesystem)
    (dir : option string) (c1 c2 : units_data) :
  cfg_agree c1 c2 →
  paths_mode fs dir c1 = paths_mode fs dir c2
  ∧ stdout_text (paths_mode fs dir c1) = stdout_text (paths_mode fs dir c2).
Proof.
  intros Hag. assert (paths_mode fs dir c1 = paths_mode fs dir c2) as ->; [|done].
  unfold paths_mode. destruct (factions_of fs (base_path_of dir)); [|done].
  f_equal. apply list_bind_ext; [|done]. intros faction.
  by apply faction_lines_agree.
Qed.

(** C10. The unit names never reach the output: two configurations with the
    same unit entries in the same order, under whatever names, give the same
    outcome in both modes; and the identifier that [--rust] mode prints for a
    unit is the texture of its idle animation with the dashes removed. *)
Theorem unit_names_do_not_matter (c1 c2 : units_data) :
  c1.*2 = c2.*2 →
  rust_mode c1 = rust_mode c2
  ∧ (∀ fs dir, paths_mode fs dir c1 = paths_mode fs dir c2)
  ∧ (∀ frames ud lines frames',
       rust_unit frames ud = inr (lines, frames') →
       ∃ idle, ud !! "IdleAnimation" = Some idle
               ∧ lines !! 0%nat
                 = Some ("    Unit::" +:+ replace_dash (Texture idle) +:+ " => ("
                           +:+ pretty frames +:+ ", UnitAnimationData::new("))
  ∧ (∀ s, list_ascii_of_string (replace_dash s)
          = filter (λ c, c ≠ "-"%char) (list_ascii_of_string s)).
Proof.
  intros Heq. split; [|split; [|split]].
  - unfold rust_mode. by rewrite (rust_loop_values 0 c1 c2 Heq).
  - intros fs dir. unfold paths_mode.
    destruct (factions_of fs (base_path_of dir)); [|done].
    f_equal. apply list_bind_ext; [|done]. intros faction.
    by rewrite !faction_lines_values, Heq.
  - intros frames ud lines frames'. unfold rust_unit, getitem.
    destruct (ud !! "IdleAnimation") as [idle|]; [|done].
    destruct (ud !! "MoveUpAnimation"); [|done].
    destruct (ud !! "MoveDownAnimation"); [|done].
    destruct (ud !! "MoveSideAnimation"); [|done].
    intros [= <- _]. by exists idle.
  - apply replace_dash_filter.
Qed.

(** ** Comment removal and parsing *)

Section Comments.

Lemma app_cons c s t : String c s +:+ t = String c (s +:+ t).
Proof. reflexivity. Qed.

Lemma startswith_sep_app_LF a b :
  startswith_sep (a +:+ String LF b) = startswith_sep a.
Proof. by destruct a. Qed.

Lemma startswith_sep_app_sep a s t :
  startswith_sep (a +:+ String "/" s) = startswith_sep (a +:+ String "/" t).
Proof. by destruct a. Qed.

(** Inside a match nothing is kept before the line feed. *)
Lemma sub_comments_skipping_head s :
  startswith_sep (sub_comments true s) = false.
Proof.
  induction s as [|c s IH]; [done|]. simpl.
  destruct (Ascii.eqb_spec c LF) as [->|]; [done|apply IH].
Qed.

Lemma sub_comments_head s :
  startswith_sep (sub_comments false s) = true → startswith_sep s = true.
Proof.
  destruct s as [|c s]; [done|]. simpl.
  destruct (Ascii.eqb c "/") eqn:E; [done|]. simpl. by rewrite E.
Qed.

(** No [//] is left. *)
Lemma sub_comments_no_double_slash sk s :
  has_double_slash (sub_comments sk s) = false.
Proof.
  revert sk. induction s as [|c s IH]; intros sk; [done|]. simpl.
  destruct sk.
  - destruct (Ascii.eqb_spec c LF) as [->|]; [|apply IH].
    simpl. apply IH.
  - destruct (Ascii.eqb c "/" && startswith_sep s) eqn:E; [apply IH|].
    simpl. rewrite IH, orb_false_r.
    destruct (Ascii.eqb c "/"); [|done]. simpl in *.
    destruct (startswith_sep (sub_comments false s)) eqn:H; [|done].
    apply sub_comments_head in H. congruence.
Qed.

(** A text without [//] is left as it is. *)
Lemma sub_comments_id s :
  has_double_slash s = false → sub_comments false s = s.
Proof.
  induction s as [|c s IH]; [done|]. simpl.
  intros [-> Hs]%orb_false_elim. by rewrite IH.
Qed.

(** Every line feed is kept, and the scan starts afresh after it. *)
Lemma sub_comments_line_feed sk a b :
  sub_comments sk (a +:+ String LF b)
  = sub_comments sk a +:+ String LF (sub_comments false b).
Proof.
  revert sk. induction a as [|c a IH]; intros sk.
  - by destruct sk.
  - rewrite app_cons. simpl. rewrite startswith_sep_app_LF. destruct sk.
    + destruct (Ascii.eqb c LF); [|apply IH]. by rewrite IH.
    + destruct (Ascii.eqb c "/" && startswith_sep a); [apply IH|].
      by rewrite IH.
Qed.

Lemma sub_comments_skip_line q :
  has_line_feed q = false → sub_comments true q = "".
Proof.
  induction q as [|c q IH]; [done|]. simpl.
  intros [-> Hq]%orb_false_elim. by apply IH.
Qed.

(** On a line, everything from the first [//] on is removed. *)
Lemma sub_comments_cut p q :
  has_double_slash (p +:+ "/") = false → has_line_feed q = false →
  sub_comments false (p +:+ "//" +:+ q) = p.
Proof.
  intros Hp Hq. change ("//" +:+ q) with (String "/" (String "/" q)).
  induction p as [|c p IH].
  - change (sub_comments true (String "/" q) = ""). simpl.
    by apply sub_comments_skip_line.
  - rewrite app_cons in Hp |- *. simpl in Hp |- *.
    apply orb_false_elim in Hp as [Hc Hp].
    rewrite (startswith_sep_app_sep p _ ""), Hc. by rewrite IH.
Qed.

(** When no [//] stands inside a string value, the substitution removes
    the comments and nothing else. *)
Lemma sub_comments_without_comments st doc :
  slashes_outside_strings st doc = true →
  sub_comments (skipping_of st) doc = without_comments st doc.
Proof.
  revert st. induction doc as [|c doc IH]; intros st; [done|].
  simpl. intros [Hc Hrest]%andb_true_iff. specialize (IH _ Hrest).
  destruct st; simpl in *.
  - destruct (Ascii.eqb_spec c quote) as [->|Hq]; [by rewrite <- IH|].
    destruct (Ascii.eqb c "/" && startswith_sep doc); by rewrite <- IH.
  - apply negb_true_iff in Hc. rewrite Hc.
    destruct (Ascii.eqb c backslash); [by rewrite <- IH|].
    destruct (Ascii.eqb c quote); by rewrite <- IH.
  - apply negb_true_iff in Hc. rewrite Hc. by rewrite <- IH.
  - destruct (Ascii.eqb c LF); by rewrite <- IH.
Qed.

Lemma rust_unit_error frames ud e :
  rust_unit frames ud = inl e → ∃ k, e = KeyError k.
Proof.
  unfold rust_unit, getitem.
  destruct (ud !! "IdleAnimation"); [|intros [= <-]; eauto].
  destruct (ud !! "MoveUpAnimation"); [|intros [= <-]; eauto].
  destruct (ud !! "MoveDownAnimation"); [|intros [= <-]; eauto].
  destruct (ud !! "MoveSideAnimation"); [done|intros [= <-]; eauto].
Qed.

Lemma rust_loop_error frames cfg out e :
  rust_loop frames cfg = (out, inl e) → ∃ k, e = KeyError k.
Proof.
  revert frames out. induction cfg as [|[name ud] cfg IH]; intros frames out.
  - done.
  - simpl. destruct (rust_unit frames ud) as [e'|[lines frames']] eqn:Hu.
    + intros [= _ <-]. by eapply rust_unit_error.
    + destruct (rust_loop frames' cfg) as [out' r] eqn:Hl.
      intros [= _ ->]. by eapply IH.
Qed.

(** Once the document is parsed, no [ParseError] can follow. *)
Lemma modes_no_parse_error (w : world) cfg :
  raised (if rust w then rust_mode cfg
          else paths_mode (files w) (TEXTURES_DIR w) cfg) ≠ Some ParseError.
Proof.
  destruct (rust w).
  - unfold rust_mode. destruct (rust_loop 0 cfg) as [out [e|n]] eqn:Hl; [|done].
    apply rust_loop_error in Hl as [k ->]. done.
  - unfold paths_mode. by destruct (factions_of _ _).
Qed.

End Comments.

(** C8. The document is parsed after every [//] line comment, from the
    [//] up to the end of its line, has been removed: loading succeeds
    exactly when the remaining text parses, and otherwise the run fails with
    a [ParseError] before printing anything.  The remaining text contains no
    [//], keeps every line feed, and on each line is the part before the
    first [//]; a text without [//] is left as it is.  When no [//] stands
    inside a string value, the remaining text is the document without its
    comments, so the document parses to what it parses to without them. *)
Theorem comments_stripped_before_parsing
    (json_loads : string → option units_data) (w : world) :
  let content := units_json w in
  (∀ cfg, load_units json_loads content = inr cfg
          ↔ json_loads (strip_comments content) = Some cfg)
  ∧ (raised (main json_loads w) = Some ParseError
     ↔ json_loads (strip_comments content) = None)
  ∧ (json_loads (strip_comments content) = None →
       main json_loads w = Outcome [] (Some ParseError))
  ∧ has_double_slash (strip_comments content) = false
  ∧ (has_double_slash content = false → strip_comments content = content)
  ∧ (∀ a b, strip_comments (a +:+ String LF b)
            = strip_comments a +:+ String LF (strip_comments b))
  ∧ (∀ p q, has_double_slash (p +:+ "/") = false → has_line_feed q = false →
            strip_comments (p +:+ "//" +:+ q) = p)
  ∧ (slashes_outside_strings Code content = true →
       strip_comments content = without_comments Code content
       ∧ ∀ cfg, load_units json_loads content = inr cfg
                ↔ json_loads (without_comments Code content) = Some cfg).
Proof.
  intros content.
  assert (Hload : ∀ cfg, load_units json_loads content = inr cfg
                         ↔ json_loads (strip_comments content) = Some cfg).
  { intros cfg. unfold load_units.
    destruct (json_loads (strip_comments content)); split; congruence. }
  split; [done|]. split; [|split; [|split; [|split; [|split; [|split]]]]].
  - unfold main, load_units. fold content.
    destruct (json_loads (strip_comments content)) as [cfg|]; [|done].
    split; [|done]. intros H. by apply modes_no_parse_error in H.
  - intros H. unfold main, load_units. fold content. by rewrite H.
  - apply sub_comments_no_double_slash.
  - apply sub_comments_id.
  - intros a b. apply sub_comments_line_feed.
  - intros p q. apply sub_comments_cut.
  - intros Hs. pose proof (sub_comments_without_comments Code content Hs) as Heq.
    change (strip_comments content = without_comments Code content) in Heq.
    split; [done|]. intros cfg. by rewrite Hload, Heq.
Qed.

(** ** Worked instances *)

Lemma tank_has_all_keys : has_all_keys tank.
Proof.
  intros k Hk. unfold animations in Hk. rewrite !elem_of_cons, elem_of_nil in Hk.
  destruct Hk as [->|[->|[->|[->|[]]]]]; vm_compute; eauto.
Qed.

Lemma tank_cfg_complete : complete tank_cfg.
Proof. constructor; [apply tank_has_all_keys|constructor]. Qed.

Lemma tank_no_up_lacks : lacks_key tank_no_up.
Proof. exists "MoveUpAnimation". split; [in_animations|by vm_compute]. Qed.

Lemma tank_timed_agree : cfg_agree tank_cfg [("Tank", tank_timed)].
Proof.
  constructor; [|constructor]. split; [done|]. intros k. simpl.
  unfold tank, tank_timed.
  rewrite !lookup_insert, !lookup_empty.
  repeat case_decide; by constructor.
Qed.

(** The example of the specification: one faction, the unit [Tank], seven
    lines, all under [OrangeStar], numbered along each sequence. *)
Example tank_seven_lines :
  paths_mode fs_nested (Some "T") tank_cfg
  = Outcome [ "T/Units/OrangeStar/tank-a-0.png";
              "T/Units/OrangeStar/tank-a-1.png";
              "T/Units/OrangeStar/tank-a-0.png";
              "T/Units/OrangeStar/tank-a-0.png";
              "T/Units/OrangeStar/tank-a-0.png";
              "T/Units/OrangeStar/tank-a-1.png";
              "T/Units/OrangeStar/tank-a-2.png" ] None.
Proof. by vm_compute. Qed.

Example tank_rust_fragment :
  rust_mode tank_cfg
  = Outcome [ "// This file is generated by unit_animation.py --rust";
              "fn get_animation_data(unit: Unit) -> (u16, UnitAnimationData) {";
              "match unit {";
              "    Unit::tanka => (0, UnitAnimationData::new(";
              "        &[0, 1],";
              "        &[0],";
              "        &[0],";
              "        &[0, 1, 2],";
              "    )),";
              "}";
              "}";
              "impl UnitAnimationData {";
              "pub const TOTAL_FRAMES: usize = 7;";
              "}" ] None.
Proof. by vm_compute. Qed.

(** A string value that holds [//] is cut by the substitution: the
    condition on string values cannot be dropped. *)
Example url_is_cut :
  strip_comments (String quote ("http://x" +:+ String quote ""))
  = String quote "http:"
  ∧ slashes_outside_strings Code (String quote ("http://x" +:+ String quote ""))
    = false.
Proof. split; reflexivity. Qed.

Lemma rust_total_frames_is_sum_witness :
  complete tank_cfg
  ∧ ∃ body,
      rust_mode tank_cfg
        = Outcome (rust_header ++ body ++ rust_footer (total_frames tank_cfg)) None
      ∧ rust_loop 0 tank_cfg = (body, inr (total_frames tank_cfg))
      ∧ printed (rust_mode tank_cfg) !! (length (printed (rust_mode tank_cfg)) - 2)
        = Some ("pub const TOTAL_FRAMES: usize = "
                  +:+ pretty (total_frames tank_cfg) +:+ ";").
Proof.
  split; [apply tank_cfg_complete|].
  apply (rust_total_frames_is_sum tank_cfg). apply tank_cfg_complete.
Defined.

Lemma rust_key_error_iff_key_missing_witness :
  (Exists (λ p, lacks_key p.2) [("Tank", tank); ("Tank2", tank_no_up)]
   ∧ ∃ k, k ∈ animations
          ∧ raised (rust_mode [("Tank", tank); ("Tank2", tank_no_up)])
            = Some (KeyError k))
  ∧ (complete tank_cfg ∧ raised (rust_mode tank_cfg) = None).
Proof.
  split; split.
  - apply Exists_cons_tl, Exists_cons_hd, tank_no_up_lacks.
  - apply (proj1 (rust_key_error_iff_key_missing
                    [("Tank", tank); ("Tank2", tank_no_up)])).
    apply Exists_cons_tl, Exists_cons_hd, tank_no_up_lacks.
  - apply tank_cfg_complete.
  - apply (proj2 (rust_key_error_iff_key_missing tank_cfg)).
    apply tank_cfg_complete.
Defined.

Lemma paths_line_count_witness :
  factions_of fs_two (base_path_of (Some "T")) = Some ["BlueMoon"; "OrangeStar"]
  ∧ length (printed (paths_mode fs_two (Some "T") tank_cfg))
    = length ["BlueMoon"; "OrangeStar"] * total_frames tank_cfg.
Proof.
  split; [by vm_compute|].
  apply (paths_line_count fs_two (Some "T") tank_cfg). by vm_compute.
Defined.

Lemma paths_factions_in_order_witness :
  factions_of fs_two (base_path_of (Some "T")) = Some ["BlueMoon"; "OrangeStar"]
  ∧ (let out := tagged_lines (base_path_of (Some "T")) ["BlueMoon"; "OrangeStar"]
                  tank_cfg in
     printed (paths_mode fs_two (Some "T") tank_cfg) = out.*2
     ∧ (∀ f line, (f, line) ∈ out →
          f ∈ ["BlueMoon"; "OrangeStar"] ∧ ∃ (texture_name : string) (i : nat),
            line = base_path_of (Some "T") +:+ "/" +:+ f +:+ "/" +:+ texture_name
                     +:+ "-" +:+ pretty i +:+ ".png")
     ∧ (∀ (i j : nat) fi li fj lj,
          out !! i = Some (fi, li) → out !! j = Some (fj, lj) →
          strict String.le fi fj → (i < j)%nat)
     ∧ (∀ (i k j : nat) f li lj fk lk,
          (i ≤ k)%nat → (k ≤ j)%nat →
          out !! i = Some (f, li) → out !! j = Some (f, lj) →
          out !! k = Some (fk, lk) → fk = f)
     ∧ (∀ names, listdir fs_two (base_path_of (Some "T")) = Some names →
          NoDup names → StronglySorted (strict String.le) ["BlueMoon"; "OrangeStar"])).
Proof.
  split; [by vm_compute|].
  apply (paths_factions_in_order fs_two (Some "T") tank_cfg). by vm_compute.
Defined.

Lemma paths_one_line_per_frame_witness :
  factions_of fs_nested (base_path_of (Some "T")) = Some ["OrangeStar"]
  ∧ printed (paths_mode fs_nested (Some "T") [("Tank", tank_timed)])
    = (["OrangeStar"] ≫= λ faction, [("Tank", tank_timed)] ≫= λ p,
         present_entries p.2 ≫= anim_lines (base_path_of (Some "T")) faction)
  ∧ ∀ faction anim,
      length (anim_lines (base_path_of (Some "T")) faction anim)
      = length (Frames anim)
      ∧ (∀ i : nat, i < length (Frames anim) →
           anim_lines (base_path_of (Some "T")) faction anim !! i
           = Some (base_path_of (Some "T") +:+ "/" +:+ faction +:+ "/"
                     +:+ Texture anim +:+ "-" +:+ pretty i +:+ ".png"))
      ∧ (∀ n : nat, Frames anim = Z.of_nat <$> seq 0 n →
           anim_lines (base_path_of (Some "T")) faction anim
           = lines_by_frame_value (base_path_of (Some "T")) faction anim).
Proof.
  split; [by vm_compute|].
  apply (paths_one_line_per_frame fs_nested (Some "T") [("Tank", tank_timed)]).
  by vm_compute.
Defined.

Lemma paths_missing_key_drops_its_lines_witness :
  animations !! 1%nat = Some "MoveUpAnimation"
  ∧ tank_no_up !! "MoveUpAnimation" = None
  ∧ (let base := base_path_of (Some "T") in
     let without := [] ++ ("Tank", tank_no_up) :: [("Tank2", tank)] in
     let with_key :=
       [] ++ ("Tank", <["MoveUpAnimation" := AnimData "tank-a" [0]%Z]> tank_no_up)
          :: [("Tank2", tank)] in
     raised (paths_mode fs_two (Some "T") without)
     = raised (paths_mode fs_two (Some "T") with_key)
     ∧ (∀ k', raised (paths_mode fs_two (Some "T") without) ≠ Some (KeyError k'))
     ∧ ∀ F, factions_of fs_two base = Some F →
         raised (paths_mode fs_two (Some "T") without) = None
         ∧ printed (paths_mode fs_two (Some "T") with_key)
           = (F ≫= λ f,
                faction_lines base f []
                ++ kinds_lines base f tank_no_up (take 1 animations)
                ++ anim_lines base f (AnimData "tank-a" [0]%Z)
                ++ kinds_lines base f tank_no_up (drop 2 animations)
                ++ faction_lines base f [("Tank2", tank)])
         ∧ printed (paths_mode fs_two (Some "T") without)
           = (F ≫= λ f,
                faction_lines base f []
                ++ kinds_lines base f tank_no_up (take 1 animations)
                ++ kinds_lines base f tank_no_up (drop 2 animations)
                ++ faction_lines base f [("Tank2", tank)])).
Proof.
  split; [reflexivity|]. split; [by vm_compute|].
  apply (paths_missing_key_drops_its_lines fs_two (Some "T")
           [] [("Tank2", tank)] "Tank" tank_no_up "MoveUpAnimation" 1
           (AnimData "tank-a" [0]%Z)).
  - reflexivity.
  - by vm_compute.
Defined.

(** The same instance, computed: the unit without [MoveUpAnimation] prints
    six lines per faction where the full unit prints seven. *)
Example tank_no_up_lines :
  printed (paths_mode fs_nested (Some "T") [("Tank", tank_no_up)])
  = [ "T/Units/OrangeStar/tank-a-0.png";
      "T/Units/OrangeStar/tank-a-1.png";
      "T/Units/OrangeStar/tank-a-0.png";
      "T/Units/OrangeStar/tank-a-0.png";
      "T/Units/OrangeStar/tank-a-1.png";
      "T/Units/OrangeStar/tank-a-2.png" ].
Proof. by vm_compute. Qed.

Lemma paths_depend_on_frame_counts_only_witness :
  cfg_agree tank_cfg [("Tank", tank_timed)]
  ∧ paths_mode fs_two (Some "T") tank_cfg
    = paths_mode fs_two (Some "T") [("Tank", tank_timed)]
  ∧ stdout_text (paths_mode fs_two (Some "T") tank_cfg)
    = stdout_text (paths_mode fs_two (Some "T") [("Tank", tank_timed)]).
Proof.
  split; [apply tank_timed_agree|].
  apply (paths_depend_on_frame_counts_only fs_two (Some "T")).
  apply tank_timed_agree.
Defined.

Lemma unit_names_do_not_matter_witness :
  tank_cfg.*2 = [("Panzer", tank)].*2
  ∧ rust_mode tank_cfg = rust_mode [("Panzer", tank)]
  ∧ (∀ fs dir, paths_mode fs dir tank_cfg = paths_mode fs dir [("Panzer", tank)])
  ∧ (∀ frames ud lines frames',
       rust_unit frames ud = inr (lines, frames') →
       ∃ idle, ud !! "IdleAnimation" = Some idle
               ∧ lines !! 0%nat
                 = Some ("    Unit::" +:+ replace_dash (Texture idle) +:+ " => ("
                           +:+ pretty frames +:+ ", UnitAnimationData::new("))
  ∧ (∀ s, list_ascii_of_string (replace_dash s)
          = filter (λ c, c ≠ "-"%char) (list_ascii_of_string s)).
Proof.
  split; [reflexivity|].
  apply (unit_names_do_not_matter tank_cfg [("Panzer", tank)]). reflexivity.
Defined.

Lemma comments_stripped_before_parsing_witness :
  slashes_outside_strings Code (units_json sample_world) = true
  ∧ strip_comments (units_json sample_world)
    = without_comments Code (units_json sample_world)
  ∧ ∀ cfg, load_units sample_loads (units_json sample_world) = inr cfg
           ↔ sample_loads (without_comments Code (units_json sample_world))
             = Some cfg.
Proof.
  split; [reflexivity|].
  apply (proj2 (proj2 (proj2 (proj2 (proj2 (proj2 (proj2
           (comments_stripped_before_parsing sample_loads sample_world)))))))).
  reflexivity.
Defined.

(** The sample run: the comment goes, the document parses to no unit, and
    nothing is printed. *)
Example sample_world_run :
  strip_comments (units_json sample_world) = "{} "
  ∧ main sample_loads sample_world = Outcome [] None.
Proof. split; by vm_compute. Qed.


(** * Further properties of the script *)

(** ** The Rust fragment, entry by entry *)

Section RustEntries.

Lemma rust_loop_app frames (c1 c2 : units_data) :
  rust_loop frames (c1 ++ c2)
  = match rust_loop frames c1 with
    | (out1, inl e) => (out1, inl e)
    | (out1, inr frames1) =>
        let '(out2, r) := rust_loop frames1 c2 in (out1 ++ out2, r)
    end.
Proof.
  revert frames. induction c1 as [|[name ud] c1 IH]; intros frames.
  - simpl. by destruct (rust_loop frames c2).
  - simpl. destruct (rust_unit frames ud) as [e|[lines frames']]; [done|].
    rewrite IH. destruct (rust_loop frames' c1) as [out1 [e|frames1]]; [done|].
    destruct (rust_loop frames1 c2) as [out2 r]. by rewrite app_assoc.
Qed.

Lemma rust_unit_length frames ud lines frames' :
  rust_unit frames ud = inr (lines, frames') → length lines = 6.
Proof.
  unfold rust_unit, getitem.
  destruct (ud !! "IdleAnimation"); [|done].
  destruct (ud !! "MoveUpAnimation"); [|done].
  destruct (ud !! "MoveDownAnimation"); [|done].
  destruct (ud !! "MoveSideAnimation"); [|done].
  by intros [= <- _].
Qed.

Lemma rust_loop_length frames cfg out frames' :
  rust_loop frames cfg = (out, inr frames') → length out = 6 * length cfg.
Proof.
  revert frames out. induction cfg as [|[name ud] cfg IH]; intros frames out.
  - by intros [= <- _].
  - simpl. destruct (rust_unit frames ud) as [e|[lines n]] eqn:Hu; [done|].
    destruct (rust_loop n cfg) as [out' r] eqn:Hl. intros [= <- ->].
    rewrite length_app, (rust_unit_length _ _ _ _ Hu), (IH _ _ Hl). lia.
Qed.

(** The block of a unit stands six lines after the block before it. *)
Lemma rust_loop_block frames cfg (i : nat) name ud out r :
  complete cfg → cfg !! i = Some (name, ud) →
  rust_loop frames cfg = (out, r) →
  ∃ block frames',
    rust_unit (frames + total_frames (take i cfg)) ud = inr (block, frames')
    ∧ take 6 (drop (6 * i) out) = block.
Proof.
  revert frames i out. induction cfg as [|[name' ud'] cfg IH];
    intros frames i out Hc Hi Hl; [done|].
  apply complete_cons in Hc as [Hud Hc]. simpl in Hl.
  destruct (rust_unit_complete frames ud' Hud) as [lines Hu].
  rewrite Hu in Hl. destruct (rust_loop _ cfg) as [out' r'] eqn:Hl'.
  injection Hl as <- <-.
  pose proof (rust_unit_length _ _ _ _ Hu) as Hlen.
  destruct i as [|i]; simpl in Hi.
  - injection Hi as -> ->. exists lines, (frames + unit_frames ud).
    split.
    + unfold total_frames. simpl. by rewrite Nat.add_0_r.
    + change (6 * 0) with 0. rewrite drop_0, <- Hlen. apply take_app_length.
  - destruct (IH _ i out' Hc Hi Hl') as (block & n' & Hb & Ht).
    exists block, n'. split.
    + rewrite <- Hb. f_equal. unfold total_frames. simpl. lia.
    + rewrite <- Ht. f_equal.
      replace (6 * S i) with (length lines + 6 * i) by lia.
      by rewrite drop_app_add.
Qed.

Lemma first_missing_key_error frames ud k :
  first_missing_key ud = Some k → rust_unit frames ud = inl (KeyError k).
Proof.
  unfold first_missing_key, rust_unit, getitem, animations.
  destruct (ud !! "IdleAnimation") eqn:Hi.
  2:{ rewrite filter_cons_True by done. by intros [= <-]. }
  rewrite filter_cons_False by (by rewrite Hi).
  destruct (ud !! "MoveUpAnimation") eqn:Hu.
  2:{ rewrite filter_cons_True by done. by intros [= <-]. }
  rewrite filter_cons_False by (by rewrite Hu).
  destruct (ud !! "MoveDownAnimation") eqn:Hd.
  2:{ rewrite filter_cons_True by done. by intros [= <-]. }
  rewrite filter_cons_False by (by rewrite Hd).
  destruct (ud !! "MoveSideAnimation") eqn:Hs.
  2:{ rewrite filter_cons_True by done. by intros [= <-]. }
  rewrite filter_cons_False by (by rewrite Hs). done.
Qed.

Lemma rust_unit_agree frames u v :
  rust_agree u v → rust_unit frames u = rust_unit frames v.
Proof.
  intros [Hidle Hk]. unfold rust_unit, getitem. rewrite Hidle.
  destruct (v !! "IdleAnimation") as [idle|]; [|done].
  destruct (Hk "MoveUpAnimation") as [a1 b1 H1|]; [in_animations| |done].
  destruct (Hk "MoveDownAnimation") as [a2 b2 H2|]; [in_animations| |done].
  destruct (Hk "MoveSideAnimation") as [a3 b3 H3|]; [in_animations| |done].
  by rewrite H1, H2, H3.
Qed.

End RustEntries.

Section RustOutput.



Lemma rust_unit_first_line frames ud block frames' idle :
  rust_unit frames ud = inr (block, frames') →
  ud !! "IdleAnimation" = Some idle →
  block !! 0%nat
  = Some ("    Unit::" +:+ replace_dash (Texture idle) +:+ " => ("
            +:+ pretty frames +:+ ", UnitAnimationData::new(").
Proof.
  unfold rust_unit, getitem. intros Hu Hi. rewrite Hi in Hu.
  destruct (ud !! "MoveUpAnimation"); [|done].
  destruct (ud !! "MoveDownAnimation"); [|done].
  destruct (ud !! "MoveSideAnimation"); [|done].
  by injection Hu as <- _.
Qed.

End RustOutput.

(** X1. In [--rust] mode, for a configuration whose units all have the
    four keys, the entry of the unit at position [i] occupies the six lines
    from line [3 + 6 i] on, and the offset it prints is the number of frames
    of the [i] units before it. *)
Theorem rust_entry_offset (cfg : units_data) (i : nat) (name : string)
    (ud : gmap string anim_data) (idle : anim_data) :
  complete cfg →
  cfg !! i = Some (name, ud) →
  ud !! "IdleAnimation" = Some idle →
  ∃ block frames',
    rust_unit (total_frames (take i cfg)) ud = inr (block, frames')
    ∧ take 6 (drop (3 + 6 * i) (printed (rust_mode cfg))) = block
    ∧ printed (rust_mode cfg) !! (3 + 6 * i)%nat
      = Some ("    Unit::" +:+ replace_dash (Texture idle) +:+ " => ("
                +:+ pretty (total_frames (take i cfg))
                +:+ ", UnitAnimationData::new(").
Proof.
  intros Hc Hi Hidle.
  destruct (rust_loop_complete 0 cfg Hc) as [body Hb].
  destruct (rust_loop_block 0 cfg i name ud body _ Hc Hi Hb)
    as (block & frames' & Hu & Ht).
  simpl in Hu. exists block, frames'. split; [done|].
  pose proof (rust_loop_length _ _ _ _ Hb) as Hlen.
  pose proof (lookup_lt_Some _ _ _ Hi) as Hlt.
  assert (Hblock : take 6 (drop (3 + 6 * i) (printed (rust_mode cfg))) = block).
  { unfold rust_mode. rewrite Hb. cbn [printed].
    rewrite <- drop_drop.
    change (drop 3 (rust_header ++ ?l)) with l.
    rewrite drop_app_le by lia.
    rewrite take_app_le by (rewrite length_drop; lia). done. }
  split; [done|].
  rewrite <- (rust_unit_first_line _ _ _ _ _ Hu Hidle), <- Hblock.
  rewrite lookup_take_lt by lia. rewrite lookup_drop. f_equal. lia.
Qed.

Lemma rust_entry_offset_witness :
  complete [("Tank", tank); ("Tank2", tank_timed)]
  ∧ [("Tank", tank); ("Tank2", tank_timed)] !! 1%nat = Some ("Tank2", tank_timed)
  ∧ tank_timed !! "IdleAnimation" = Some (AnimData "tank-a" [300; 300]%Z)
  ∧ ∃ block frames',
      rust_unit (total_frames (take 1 [("Tank", tank); ("Tank2", tank_timed)]))
        tank_timed = inr (block, frames')
      ∧ take 6 (drop (3 + 6 * 1)
                  (printed (rust_mode [("Tank", tank); ("Tank2", tank_timed)])))
        = block
      ∧ printed (rust_mode [("Tank", tank); ("Tank2", tank_timed)])
          !! (3 + 6 * 1)%nat
        = Some ("    Unit::"
                  +:+ replace_dash (Texture (AnimData "tank-a" [300; 300]%Z))
                  +:+ " => ("
                  +:+ pretty (total_frames
                                (take 1 [("Tank", tank); ("Tank2", tank_timed)]))
                  +:+ ", UnitAnimationData::new(").
Proof.
  assert (Hc : complete [("Tank", tank); ("Tank2", tank_timed)]).
  { repeat constructor; intros k Hk; unfold animations in Hk;
      rewrite !elem_of_cons, elem_of_nil in Hk;
      destruct Hk as [->|[->|[->|[->|[]]]]]; vm_compute; eauto. }
  split; [exact Hc|]. split; [reflexivity|]. split; [by vm_compute|].
  apply (rust_entry_offset [("Tank", tank); ("Tank2", tank_timed)] 1
           "Tank2" tank_timed (AnimData "tank-a" [300; 300]%Z)).
  - exact Hc.
  - reflexivity.
  - by vm_compute.
Defined.

(** X2. In [--rust] mode a configuration whose units all have the four
    keys prints eight lines and six more for each unit. *)
Theorem rust_line_count (cfg : units_data) :
  complete cfg → length (printed (rust_mode cfg)) = 8 + 6 * length cfg.
Proof.
  intros Hc. destruct (rust_loop_complete 0 cfg Hc) as [body Hb].
  unfold rust_mode. rewrite Hb. cbn [printed].
  rewrite !length_app, (rust_loop_length _ _ _ _ Hb). simpl. lia.
Qed.

Lemma rust_line_count_witness :
  complete tank_cfg
  ∧ length (printed (rust_mode tank_cfg)) = 8 + 6 * length tank_cfg.
Proof.
  split; [apply tank_cfg_complete|].
  apply (rust_line_count tank_cfg), tank_cfg_complete.
Defined.

(** X3. In [--rust] mode the run stops at the first unit that lacks a key:
    it has printed the header and the entries of the units before it, six
    lines each, and nothing of this unit or of the closing block; the
    [KeyError] names the first of idle, up, down, side that the unit lacks;
    the units after it are not looked at. *)
Theorem rust_stops_at_first_missing_key (pre post : units_data)
    (name : string) (ud : gmap string anim_data) (k : string) :
  complete pre →
  first_missing_key ud = Some k →
  rust_mode (pre ++ (name, ud) :: post)
  = Outcome (rust_header ++ (rust_loop 0 pre).1) (Some (KeyError k))
  ∧ length (printed (rust_mode (pre ++ (name, ud) :: post)))
    = 3 + 6 * length pre
  ∧ k ∈ animations ∧ ud !! k = None.
Proof.
  intros Hc Hk. destruct (rust_loop_complete 0 pre Hc) as [body Hb].
  assert (Hrun : rust_mode (pre ++ (name, ud) :: post)
                 = Outcome (rust_header ++ (rust_loop 0 pre).1)
                           (Some (KeyError k))).
  { unfold rust_mode. rewrite rust_loop_app, Hb. simpl.
    rewrite (first_missing_key_error _ _ _ Hk). by rewrite app_nil_r. }
  split; [done|]. split.
  - rewrite Hrun, Hb. cbn [printed fst]. rewrite length_app.
    rewrite (rust_loop_length _ _ _ _ Hb). simpl. lia.
  - apply head_Some_elem_of, list_elem_of_filter in Hk. tauto.
Qed.

Lemma rust_stops_at_first_missing_key_witness :
  complete tank_cfg
  ∧ first_missing_key tank_no_up = Some "MoveUpAnimation"
  ∧ rust_mode (tank_cfg ++ ("Tank2", tank_no_up) :: [("Tank3", tank)])
    = Outcome (rust_header ++ (rust_loop 0 tank_cfg).1)
              (Some (KeyError "MoveUpAnimation"))
  ∧ length (printed (rust_mode
                       (tank_cfg ++ ("Tank2", tank_no_up) :: [("Tank3", tank)])))
    = 3 + 6 * length tank_cfg
  ∧ "MoveUpAnimation" ∈ animations ∧ tank_no_up !! "MoveUpAnimation" = None.
Proof.
  split; [apply tank_cfg_complete|]. split; [by vm_compute|].
  apply (rust_stops_at_first_missing_key tank_cfg [("Tank3", tank)]
           "Tank2" tank_no_up "MoveUpAnimation").
  - apply tank_cfg_complete.
  - by vm_compute.
Defined.

(** X4. [--rust] mode reads one texture per unit, that of the idle
    animation: configurations whose units have, in order, the same idle
    entry and the same frames under the other three keys give the same
    outcome, whatever the other textures and the other keys of the units. *)
Theorem rust_reads_idle_texture_only (c1 c2 : units_data) :
  Forall2 (λ p q, rust_agree p.2 q.2) c1 c2 →
  rust_mode c1 = rust_mode c2.
Proof.
  intros Hag. unfold rust_mode.
  assert (∀ frames, rust_loop frames c1 = rust_loop frames c2) as ->; [|done].
  induction Hag as [|[n1 u1] [n2 u2] c1 c2 Hu _ IH]; intros frames; [done|].
  simpl in *. rewrite (rust_unit_agree frames u1 u2 Hu).
  destruct (rust_unit frames u2) as [e|[lines frames']]; [done|].
  by rewrite IH.
Qed.

Lemma rust_reads_idle_texture_only_witness :
  Forall2 (λ p q : string * gmap string anim_data, rust_agree p.2 q.2)
    tank_cfg [("Panzer", tank_retextured)]
  ∧ rust_mode tank_cfg = rust_mode [("Panzer", tank_retextured)].
Proof.
  assert (H : Forall2 (λ p q : string * gmap string anim_data,
                         rust_agree p.2 q.2)
                tank_cfg [("Panzer", tank_retextured)]).
  { constructor; [|constructor]. split; [by vm_compute|].
    intros k Hk. unfold animations in Hk.
    rewrite !elem_of_cons, elem_of_nil in Hk.
    destruct Hk as [->|[->|[->|[->|[]]]]]; vm_compute; by constructor. }
  split; [exact H|]. apply (rust_reads_idle_texture_only _ _ H).
Defined.

(** ** Strings *)

Section Strings.

Lemma append_assoc (a b c : string) : (a +:+ b) +:+ c = a +:+ (b +:+ c).
Proof. induction a as [|x a IH]; [done|]. by rewrite !app_cons, IH. Qed.

Lemma append_nil_r (a : string) : a +:+ "" = a.
Proof. induction a as [|x a IH]; [done|]. by rewrite app_cons, IH. Qed.

Lemma list_ascii_of_append (a b : string) :
  list_ascii_of_string (a +:+ b)
  = list_ascii_of_string a ++ list_ascii_of_string b.
Proof. induction a as [|x a IH]; [done|]. rewrite app_cons. simpl. by rewrite IH. Qed.

Lemma list_ascii_of_string_inj (a b : string) :
  list_ascii_of_string a = list_ascii_of_string b → a = b.
Proof.
  intros H. rewrite <- (string_of_list_ascii_of_string a),
    <- (string_of_list_ascii_of_string b). by rewrite H.
Qed.

(** [+:+] cancels on the right as on the left. *)
Lemma append_inj_r (a b t : string) : a +:+ t = b +:+ t → a = b.
Proof.
  intros H. apply list_ascii_of_string_inj.
  apply (f_equal list_ascii_of_string) in H.
  rewrite !list_ascii_of_append in H. by apply app_inv_tail in H.
Qed.

Lemma endswith_sep_snoc (d : string) : endswith_sep (d +:+ "/") = true.
Proof.
  induction d as [|c d IH]; [done|]. rewrite app_cons. simpl.
  destruct (d +:+ "/") eqn:E; [by destruct d|done].
Qed.

Lemma eqb_append_sep (d : string) : String.eqb (d +:+ "/") "" = false.
Proof. by destruct d. Qed.

(** Up to the first [/], two texts that agree have the same first name. *)
Lemma sep_free_prefix (f1 f2 r1 r2 : string) :
  contains_sep f1 = false → contains_sep f2 = false →
  f1 +:+ String "/" r1 = f2 +:+ String "/" r2 → f1 = f2.
Proof.
  revert f2. induction f1 as [|c f1 IH]; intros [|c2 f2] H1 H2 Heq.
  - done.
  - rewrite app_cons in Heq. injection Heq as <- _. done.
  - rewrite app_cons in Heq. injection Heq as -> _. done.
  - rewrite !app_cons in Heq. injection Heq as <- Heq. simpl in H1, H2.
    apply orb_false_elim in H1 as [_ H1]. apply orb_false_elim in H2 as [_ H2].
    f_equal. by apply IH.
Qed.

End Strings.

(** ** File paths, further *)

Section PathsFurther.

Lemma filter_agree {A} (P Q : A → Prop) `{∀ x, Decision (P x)}
    `{∀ x, Decision (Q x)} (l : list A) :
  (∀ x, x ∈ l → P x ↔ Q x) → filter P l = filter Q l.
Proof.
  induction l as [|x l IH]; intros Hag; [done|].
  rewrite !filter_cons, IH by (intros y Hy; apply Hag; by right).
  destruct (decide (P x)) as [HP|HP], (decide (Q x)) as [HQ|HQ]; try done.
  - exfalso. apply HQ, Hag; [by left|done].
  - exfalso. apply HP, Hag; [by left|done].
Qed.

Lemma sorted_permutation (l1 l2 : list string) :
  l1 ≡ₚ l2 → sorted l1 = sorted l2.
Proof.
  intros Hp. apply (StronglySorted_unique String.le);
    [apply sorted_strongly..|]. by rewrite !sorted_perm.
Qed.

Lemma length_paths_lines base (F : list string) cfg :
  length (F ≫= λ faction, faction_lines base faction cfg)
  = length F * total_frames cfg.
Proof.
  rewrite length_bind, <- (sum_list_with_const (total_frames cfg) F).
  induction F as [|f F IH]; simpl; [done|].
  rewrite IH. f_equal. apply length_faction_lines.
Qed.

Lemma file_path_inj_index base faction texture_name (i j : nat) :
  file_path base faction texture_name i = file_path base faction texture_name j →
  i = j.
Proof.
  unfold file_path. intros H.
  do 6 apply (inj (String.app _)) in H.
  apply append_inj_r in H. by apply (inj pretty) in H.
Qed.

Lemma path_join_trailing_sep (d b : string) :
  d ≠ "" → endswith_sep d = false →
  path_join (d +:+ "/") b = path_join d b.
Proof.
  intros Hd He. unfold path_join. destruct (startswith_sep b); [done|].
  rewrite eqb_append_sep, endswith_sep_snoc, He. simpl.
  apply String.eqb_neq in Hd. rewrite Hd. apply append_assoc.
Qed.

End PathsFurther.

(** X5. In file-path mode the order in which [os.listdir] returns the
    entries does not matter: two file systems that list the same entries
    under the [Units] directory, in whatever order, and agree on which of
    them are directories, give the same outcome. *)
Theorem paths_listing_order_irrelevant (fs1 fs2 : filesystem)
    (dir : option string) (cfg : units_data) (l1 l2 : list string) :
  listdir fs1 (base_path_of dir) = Some l1 →
  listdir fs2 (base_path_of dir) = Some l2 →
  l1 ≡ₚ l2 →
  (∀ d, d ∈ l1 → isdir fs1 (path_join (base_path_of dir) d)
                 = isdir fs2 (path_join (base_path_of dir) d)) →
  paths_mode fs1 dir cfg = paths_mode fs2 dir cfg.
Proof.
  intros H1 H2 Hp Hd. unfold paths_mode, factions_of. rewrite H1, H2.
  do 2 f_equal. apply sorted_permutation.
  rewrite <- Hp. apply reflexive_eq, filter_agree.
  intros d Hin. by rewrite (Hd d Hin).
Qed.

Lemma paths_listing_order_irrelevant_witness :
  listdir fs_two (base_path_of (Some "T"))
  = Some ["OrangeStar"; "readme.txt"; "BlueMoon"]
  ∧ listdir fs_two_reordered (base_path_of (Some "T"))
    = Some ["BlueMoon"; "OrangeStar"; "readme.txt"]
  ∧ ["OrangeStar"; "readme.txt"; "BlueMoon"]
    ≡ₚ ["BlueMoon"; "OrangeStar"; "readme.txt"]
  ∧ (∀ d, d ∈ ["OrangeStar"; "readme.txt"; "BlueMoon"] →
       isdir fs_two (path_join (base_path_of (Some "T")) d)
       = isdir fs_two_reordered (path_join (base_path_of (Some "T")) d))
  ∧ paths_mode fs_two (Some "T") tank_cfg
    = paths_mode fs_two_reordered (Some "T") tank_cfg.
Proof.
  assert (Hp : ["OrangeStar"; "readme.txt"; "BlueMoon"]
               ≡ₚ ["BlueMoon"; "OrangeStar"; "readme.txt"]).
  { symmetry.
    apply (Permutation_cons_append ["OrangeStar"; "readme.txt"] "BlueMoon"). }
  split; [reflexivity|]. split; [reflexivity|]. split; [exact Hp|].
  split; [done|].
  apply (paths_listing_order_irrelevant fs_two fs_two_reordered (Some "T")
           tank_cfg ["OrangeStar"; "readme.txt"; "BlueMoon"]
           ["BlueMoon"; "OrangeStar"; "readme.txt"]);
    [reflexivity|reflexivity|exact Hp|done].
Defined.

(** X6. A trailing [/] on [TEXTURES_DIR] changes nothing: [os.path.join]
    adds the separator only when it is missing, so for a directory name that
    is not empty and does not end in [/], the override with and without the
    trailing [/] gives the same base path and the same outcome. *)
Theorem paths_trailing_separator_irrelevant (fs : filesystem) (d : string)
    (cfg : units_data) :
  d ≠ "" → endswith_sep d = false →
  base_path_of (Some (d +:+ "/")) = d +:+ "/Units"
  ∧ base_path_of (Some d) = d +:+ "/Units"
  ∧ paths_mode fs (Some (d +:+ "/")) cfg = paths_mode fs (Some d) cfg.
Proof.
  intros Hd He.
  assert (H1 : base_path_of (Some d) = d +:+ "/Units").
  { unfold base_path_of, path_join. simpl. rewrite He.
    apply String.eqb_neq in Hd. by rewrite Hd. }
  assert (H2 : base_path_of (Some (d +:+ "/")) = base_path_of (Some d)).
  { unfold base_path_of. simpl. by apply path_join_trailing_sep. }
  split; [by rewrite H2|]. split; [done|].
  unfold paths_mode. by rewrite H2.
Qed.

Lemma paths_trailing_separator_irrelevant_witness :
  "T" ≠ "" ∧ endswith_sep "T" = false
  ∧ base_path_of (Some ("T" +:+ "/")) = "T" +:+ "/Units"
  ∧ base_path_of (Some "T") = "T" +:+ "/Units"
  ∧ paths_mode fs_two (Some ("T" +:+ "/")) tank_cfg
    = paths_mode fs_two (Some "T") tank_cfg.
Proof.
  split; [done|]. split; [reflexivity|].
  apply (paths_trailing_separator_irrelevant fs_two "T" tank_cfg);
    [done|reflexivity].
Defined.

(** X7. In file-path mode, when the [Units] directory can be listed, the
    run prints nothing exactly when no entry of it is a directory or the
    configuration has no frame at all under the four animation keys. *)
Theorem paths_output_empty_iff (fs : filesystem) (dir : option string)
    (cfg : units_data) (F : list string) :
  factions_of fs (base_path_of dir) = Some F →
  printed (paths_mode fs dir cfg) = [] ↔ F = [] ∨ total_frames cfg = 0.
Proof.
  intros HF. rewrite (paths_mode_factions fs dir F cfg HF). cbn [printed].
  rewrite <- length_zero_iff_nil, length_paths_lines.
  rewrite Nat.eq_mul_0, length_zero_iff_nil. done.
Qed.

Lemma paths_output_empty_iff_witness :
  factions_of fs_nested (base_path_of (Some "T")) = Some ["OrangeStar"]
  ∧ (printed (paths_mode fs_nested (Some "T") [("Unit", ∅)]) = []
     ↔ ["OrangeStar"] = [] ∨ total_frames [("Unit", ∅)] = 0).
Proof.
  split; [by vm_compute|].
  apply (paths_output_empty_iff fs_nested (Some "T") [("Unit", ∅)]).
  by vm_compute.
Defined.

(** X8. The lines of one animation entry under one faction are pairwise
    different: each frame of the entry has a file path of its own. *)
Theorem anim_lines_distinct (base_path faction : string) (anim : anim_data) :
  NoDup (anim_lines base_path faction anim).
Proof.
  unfold anim_lines. apply NoDup_fmap_2_strong; [|apply NoDup_seq].
  intros i j _ _. apply file_path_inj_index.
Qed.

(** X9. The faction can be read back from a printed line: two lines
    printed under the same base path for faction names without [/] (as
    directory entries are) are equal only if the factions are. *)
Theorem file_path_faction_readback (base_path f1 f2 t1 t2 : string)
    (i1 i2 : nat) :
  contains_sep f1 = false → contains_sep f2 = false →
  file_path base_path f1 t1 i1 = file_path base_path f2 t2 i2 → f1 = f2.
Proof.
  intros H1 H2. unfold file_path. intros H.
  do 2 apply (inj (String.app _)) in H.
  exact (sep_free_prefix f1 f2 (t1 +:+ "-" +:+ pretty i1 +:+ ".png")
           (t2 +:+ "-" +:+ pretty i2 +:+ ".png") H1 H2 H).
Qed.

Lemma file_path_faction_readback_witness :
  contains_sep "OrangeStar" = false ∧ contains_sep "OrangeStar" = false
  ∧ file_path "T/Units" "OrangeStar" "tank-a" 1
    = file_path "T/Units" "OrangeStar" "tank-a" 1
  ∧ "OrangeStar" = "OrangeStar".
Proof.
  split; [reflexivity|]. split; [reflexivity|]. split; [reflexivity|].
  apply (file_path_faction_readback "T/Units" "OrangeStar" "OrangeStar"
           "tank-a" "tank-a" 1 1); reflexivity.
Defined.



(** ** Comment removal, further *)

Section CommentsFurther.

Lemma sep_is_not_LF c : Ascii.eqb c "/" = true → Ascii.eqb c LF = false.
Proof. by intros ->%Ascii.eqb_eq. Qed.

Lemma sub_comments_line_feeds sk s :
  count_line_feeds (sub_comments sk s) = count_line_feeds s.
Proof.
  revert sk. induction s as [|c s IH]; intros sk; [done|]. simpl.
  destruct sk.
  - destruct (Ascii.eqb c LF) eqn:E; simpl; [by rewrite E, IH|apply IH].
  - destruct (Ascii.eqb c "/" && startswith_sep s) eqn:E.
    + apply andb_true_iff in E as [E _]. by rewrite (sep_is_not_LF c E), IH.
    + simpl. by rewrite IH.
Qed.

Lemma sub_comments_sublist sk s :
  list_ascii_of_string (sub_comments sk s) `sublist_of` list_ascii_of_string s.
Proof.
  revert sk. induction s as [|c s IH]; intros sk; [done|]. simpl.
  destruct sk.
  - destruct (Ascii.eqb c LF); simpl.
    + apply sublist_skip, IH.
    + apply sublist_cons, IH.
  - destruct (Ascii.eqb c "/" && startswith_sep s); simpl.
    + apply sublist_cons, IH.
    + apply sublist_skip, IH.
Qed.

End CommentsFurther.

(** X11. Removing the comments twice is removing them once. *)
Theorem strip_comments_idempotent (content : string) :
  strip_comments (strip_comments content) = strip_comments content.
Proof.
  unfold strip_comments. apply sub_comments_id, sub_comments_no_double_slash.
Qed.

(** X12. Removing the comments keeps the number of line feeds: the line
    numbers of the text that is parsed are those of the document. *)
Theorem strip_comments_keeps_line_count (content : string) :
  count_line_feeds (strip_comments content) = count_line_feeds content.
Proof. apply sub_comments_line_feeds. Qed.

(** X13. Removing the comments only deletes: the characters that remain are
    characters of the document, in the order of the document. *)
Theorem strip_comments_only_deletes (content : string) :
  list_ascii_of_string (strip_comments content)
  `sublist_of` list_ascii_of_string content.
Proof. apply sub_comments_sublist. Qed.

(** X14. The text is changed exactly when it contains [//] somewhere, be it
    inside a string value. *)
Theorem strip_comments_changes_iff (content : string) :
  strip_comments content = content ↔ has_double_slash content = false.
Proof.
  split.
  - intros H. rewrite <- H. apply sub_comments_no_double_slash.
  - apply sub_comments_id.
Qed.

(** ** The identifier of a unit *)

Section Identifier.

Lemma replace_dash_app (a b : string) :
  replace_dash (a +:+ b) = replace_dash a +:+ replace_dash b.
Proof.
  induction a as [|c a IH]; [done|]. rewrite app_cons. simpl.
  destruct (Ascii.eqb c "-"); [done|]. by rewrite app_cons, IH.
Qed.

Lemma replace_dash_no_dash (s : string) :
  "-"%char ∉ list_ascii_of_string (replace_dash s).
Proof.
  rewrite replace_dash_filter. intros [H _]%list_elem_of_filter. by apply H.
Qed.

End Identifier.

(** X15. The identifier of a unit never contains a dash, removing dashes
    twice changes nothing more, and dashes put anywhere into a texture name
    are not seen: textures that differ only in dashes give the same
    identifier. *)
Theorem replace_dash_ignores_dashes (a b : string) :
  ("-"%char ∉ list_ascii_of_string (replace_dash (a +:+ b)))
  ∧ replace_dash (replace_dash (a +:+ b)) = replace_dash (a +:+ b)
  ∧ replace_dash (a +:+ "-" +:+ b) = replace_dash (a +:+ b).
Proof.
  split; [apply replace_dash_no_dash|]. split.
  - apply list_ascii_of_string_inj. rewrite !replace_dash_filter.
    by rewrite list_filter_filter, (list_filter_iff _ (λ c, c ≠ "-"%char))
      by (intros c; tauto).
  - by rewrite !replace_dash_app.
Qed.

(** ** The location of the document *)

Section Location.

Lemma head_to_last_sep_free (name : string) :
  contains_sep name = false → head_to_last_sep name = "".
Proof.
  destruct name as [|c name]; [done|]. simpl. by intros ->.
Qed.

Lemma contains_sep_app_sep (d r : string) :
  contains_sep (d +:+ String "/" r) = true.
Proof.
  induction d as [|c d IH]; [done|]. rewrite app_cons. simpl.
  rewrite IH. apply orb_true_r.
Qed.

Lemma head_to_last_sep_app (d name : string) :
  contains_sep name = false →
  head_to_last_sep (d +:+ String "/" name) = d +:+ "/".
Proof.
  intros Hn. induction d as [|c d IH].
  - change (head_to_last_sep (String "/" name) = "/"). simpl.
    by rewrite (head_to_last_sep_free name Hn).
  - rewrite !app_cons. simpl. rewrite contains_sep_app_sep, orb_true_r.
    by rewrite IH.
Qed.

Lemma all_sep_app (a b : string) : all_sep (a +:+ b) = all_sep a && all_sep b.
Proof.
  induction a as [|c a IH]; [done|]. rewrite app_cons. simpl.
  by rewrite IH, andb_assoc.
Qed.

Lemma endswith_not_all_sep (d : string) :
  d ≠ "" → endswith_sep d = false → all_sep d = false.
Proof.
  induction d as [|c d IH]; [done|]. intros _. simpl.
  destruct d as [|c' d].
  - intros ->. done.
  - intros He. rewrite IH by done. apply andb_false_r.
Qed.

Lemma rstrip_sep_snoc (d : string) : rstrip_sep (d +:+ "/") = rstrip_sep d.
Proof.
  induction d as [|c d IH]; [done|]. rewrite app_cons. simpl. by rewrite IH.
Qed.

Lemma rstrip_sep_id (d : string) : endswith_sep d = false → rstrip_sep d = d.
Proof.
  induction d as [|c d IH]; [done|]. simpl. destruct d as [|c' d].
  - intros ->. done.
  - intros He. rewrite IH by done. simpl. by rewrite andb_false_r.
Qed.

Lemma endswith_sep_app (a : string) c r :
  endswith_sep (a +:+ String c r) = endswith_sep (String c r).
Proof.
  induction a as [|x a IH]; [done|]. rewrite app_cons.
  change (endswith_sep (String x (a +:+ String c r)))
    with (match a +:+ String c r with
          | EmptyString => Ascii.eqb x "/"
          | String _ _ => endswith_sep (a +:+ String c r)
          end).
  destruct (a +:+ String c r) eqn:E; [by destruct a|done].
Qed.

Lemma dirname_app (d name : string) :
  d ≠ "" → endswith_sep d = false → contains_sep name = false →
  dirname (d +:+ "/" +:+ name) = d.
Proof.
  intros Hd He Hn. unfold dirname.
  change (d +:+ "/" +:+ name) with (d +:+ String "/" name).
  rewrite (head_to_last_sep_app d name Hn).
  rewrite eqb_append_sep, all_sep_app, (endswith_not_all_sep d Hd He). simpl.
  by rewrite rstrip_sep_snoc, rstrip_sep_id.
Qed.

End Location.

(** X16. The document is looked for beside the script.  When [__file__] is
    a directory, not empty and not ending in [/], followed by [/] and a file
    name, the path opened is that directory followed by [/data/Units.json];
    when [__file__] is a bare file name, the path is [data/Units.json],
    relative to the working directory. *)
Theorem units_json_beside_script (d name : string) :
  d ≠ "" → endswith_sep d = false → contains_sep name = false →
  dirname (d +:+ "/" +:+ name) = d
  ∧ units_json_path (d +:+ "/" +:+ name) = d +:+ "/data/Units.json"
  ∧ dirname name = ""
  ∧ units_json_path name = "data/Units.json".
Proof.
  intros Hd He Hn.
  pose proof (dirname_app d name Hd He Hn) as Hdir.
  assert (Hbare : dirname name = "").
  { unfold dirname. by rewrite (head_to_last_sep_free name Hn). }
  split; [done|]. split; [|split; [done|]].
  - unfold units_json_path. rewrite Hdir. unfold path_join. simpl.
    apply String.eqb_neq in Hd. rewrite Hd, He. simpl.
    change (d +:+ "/" +:+ "data") with (d +:+ String "/" "data").
    rewrite endswith_sep_app. simpl.
    destruct (d +:+ String "/" "data") eqn:E; [by destruct d|].
    simpl. rewrite <- E. by rewrite append_assoc.
  - unfold units_json_path. by rewrite Hbare.
Qed.

Lemma units_json_beside_script_witness :
  "assets" ≠ "" ∧ endswith_sep "assets" = false
  ∧ contains_sep "unit_animation.py" = false
  ∧ dirname ("assets" +:+ "/" +:+ "unit_animation.py") = "assets"
  ∧ units_json_path ("assets" +:+ "/" +:+ "unit_animation.py")
    = "assets" +:+ "/data/Units.json"
  ∧ dirname "unit_animation.py" = ""
  ∧ units_json_path "unit_animation.py" = "data/Units.json".
Proof.
  split; [done|]. split; [reflexivity|]. split; [reflexivity|].
  apply (units_json_beside_script "assets" "unit_animation.py");
    [done|reflexivity|reflexivity].
Defined.

(** ** Standard output *)

Section StandardOutput.

Lemma concat_empty_cons (x : string) (l : list string) :
  String.concat "" (x :: l) = x +:+ String.concat "" l.
Proof. destruct l; simpl; [by rewrite append_nil_r|done]. Qed.

Lemma count_line_feeds_app (a b : string) :
  count_line_feeds (a +:+ b) = count_line_feeds a + count_line_feeds b.
Proof.
  induction a as [|c a IH]; [done|]. rewrite app_cons. simpl. rewrite IH. lia.
Qed.

Lemma count_line_feeds_none (s : string) :
  has_line_feed s = false → count_line_feeds s = 0.
Proof.
  induction s as [|c s IH]; [done|]. simpl.
  intros [-> Hs]%orb_false_elim. by rewrite IH.
Qed.

Lemma paths_lines_lookup base (F : list string) cfg (j r : nat) f :
  F !! j = Some f → r < total_frames cfg →
  (F ≫= λ faction, faction_lines base faction cfg)
    !! (j * total_frames cfg + r)%nat
  = faction_lines base f cfg !! r.
Proof.
  revert j. induction F as [|f0 F IH]; intros j Hj Hr; [done|].
  rewrite bind_cons. destruct j as [|j]; simpl in Hj.
  - injection Hj as ->. simpl.
    rewrite lookup_app_l by (by rewrite length_faction_lines). done.
  - rewrite lookup_app_r by (rewrite length_faction_lines; simpl; lia).
    rewrite length_faction_lines. rewrite <- (IH j Hj Hr). f_equal.
    simpl. lia.
Qed.

End StandardOutput.

(** X17. Each [print] makes one line of the output, as long as the string
    printed holds no line feed itself: then the number of line feeds written
    to standard output is the number of strings printed. *)
Theorem stdout_one_line_per_print (o : outcome) :
  Forall (λ line, has_line_feed line = false) (printed o) →
  count_line_feeds (stdout_text o) = length (printed o).
Proof.
  unfold stdout_text. induction 1 as [|line lines Hl _ IH]; [done|].
  rewrite fmap_cons, concat_empty_cons, !count_line_feeds_app, IH.
  rewrite (count_line_feeds_none line Hl). done.
Qed.

Lemma stdout_one_line_per_print_witness :
  Forall (λ line, has_line_feed line = false)
    (printed (paths_mode fs_nested (Some "T") tank_cfg))
  ∧ count_line_feeds (stdout_text (paths_mode fs_nested (Some "T") tank_cfg))
    = length (printed (paths_mode fs_nested (Some "T") tank_cfg)).
Proof.
  assert (H : Forall (λ line, has_line_feed line = false)
                (printed (paths_mode fs_nested (Some "T") tank_cfg))).
  { apply (bool_decide_unpack _). by vm_compute. }
  split; [exact H|]. apply (stdout_one_line_per_print _ H).
Defined.

(** X18. In file-path mode every faction gets a block of the same length,
    the number of frames of the configuration, and the blocks follow one
    another: line [j * n + r] of the output, for [r] below [n], is line [r]
    of the block of the [j]-th faction. *)
Theorem paths_line_at (fs : filesystem) (dir : option string)
    (cfg : units_data) (F : list string) (j r : nat) (f : string) :
  factions_of fs (base_path_of dir) = Some F →
  F !! j = Some f →
  r < total_frames cfg →
  length (faction_lines (base_path_of dir) f cfg) = total_frames cfg
  ∧ printed (paths_mode fs dir cfg) !! (j * total_frames cfg + r)%nat
    = faction_lines (base_path_of dir) f cfg !! r.
Proof.
  intros HF Hj Hr. split; [apply length_faction_lines|].
  rewrite (paths_mode_factions fs dir F cfg HF). cbn [printed].
  by apply paths_lines_lookup.
Qed.

Lemma paths_line_at_witness :
  factions_of fs_two (base_path_of (Some "T")) = Some ["BlueMoon"; "OrangeStar"]
  ∧ ["BlueMoon"; "OrangeStar"] !! 1%nat = Some "OrangeStar"
  ∧ 2 < total_frames tank_cfg
  ∧ length (faction_lines (base_path_of (Some "T")) "OrangeStar" tank_cfg)
    = total_frames tank_cfg
  ∧ printed (paths_mode fs_two (Some "T") tank_cfg)
      !! (1 * total_frames tank_cfg + 2)%nat
    = faction_lines (base_path_of (Some "T")) "OrangeStar" tank_cfg !! 2%nat.
Proof.
  split; [by vm_compute|]. split; [reflexivity|].
  split; [vm_compute; lia|].
  apply (paths_line_at fs_two (Some "T") tank_cfg ["BlueMoon"; "OrangeStar"]
           1 2 "OrangeStar"); [by vm_compute|reflexivity|vm_compute; lia].
Defined.
